(** * H Holdings newsletter: the content aggregation pipeline of [newsletter.py]

    A shallow embedding of [fetch_rss], [fetch_mortgage_rate],
    [filter_articles] and [gather_news], and the properties the
    specification states about them.

    Conventions of the model.
    - A Python [str] is a [string]; the character-level operations
      ([str.lower], [str.strip], the two regular expressions) are written
      for the ASCII range.  Characters outside that range occur only in
      labels that the code copies without inspecting them.
    - A Python [int] is a [Z]; a slice [l[:n]] follows Python for a
      negative [n] as well.
    - The collaborators the code calls (the HTTP transport, the XML and
      JSON parsers, the entity table of [html.unescape], the clock) are the
      fields of a [world]; the functions below take the world they run in.
    - Code that may raise runs in the monad [io]: an outcome ([Ok] or
      [Raise]) together with the log of requests and printed lines.  An
      exception is an instance of [Exception], which is what the handlers
      of the source catch; [print] itself is taken not to raise. *)

From Stdlib Require Import List ZArith Lia Bool Ascii String Permutation.
From Equations Require Import Equations.
Import ListNotations.

Set Warnings "-register-all".

Local Open Scope string_scope.
Local Open Scope list_scope.
Local Open Scope Z_scope.

(** ** Python strings *)

Definition code (c : ascii) : N := N_of_ascii c.

Definition in_range (lo hi : N) (c : ascii) : bool :=
  ((lo <=? code c) && (code c <=? hi))%N.

(** [str.lower], character by character. *)
Definition lower_char (c : ascii) : ascii :=
  if in_range 65 90 c then ascii_of_N (code c + 32) else c.

Fixpoint lower (s : string) : string :=
  match s with
  | EmptyString => EmptyString
  | String c r => String (lower_char c) (lower r)
  end.

(** [c.isspace()]: tab to carriage return, the four separators, space. *)
Definition is_space (c : ascii) : bool :=
  in_range 9 13 c || in_range 28 32 c.

Definition is_digit (c : ascii) : bool := in_range 48 57 c.

Definition str_nonempty (s : string) : bool :=
  match s with EmptyString => false | String _ _ => true end.

(** [s.startswith(p)] *)
Fixpoint starts_with (s p : string) : bool :=
  match p, s with
  | EmptyString, _ => true
  | String _ _, EmptyString => false
  | String a p', String b s' => Ascii.eqb a b && starts_with s' p'
  end.

(** [p in s]: [p] occurs in [s] as a substring. *)
Fixpoint contains (s p : string) : bool :=
  starts_with s p ||
  match s with
  | EmptyString => false
  | String _ r => contains r p
  end.

(** [s[:n]] for a literal, non-negative [n]. *)
Fixpoint str_take (n : nat) (s : string) : string :=
  match n, s with
  | S k, String c r => String c (str_take k r)
  | _, _ => EmptyString
  end.

Fixpoint lstrip (s : string) : string :=
  match s with
  | EmptyString => EmptyString
  | String c r => if is_space c then lstrip r else s
  end.

Fixpoint rstrip (s : string) : string :=
  match s with
  | EmptyString => EmptyString
  | String c r =>
      match rstrip r with
      | EmptyString => if is_space c then EmptyString else String c EmptyString
      | r' => String c r'
      end
  end.

(** [s.strip()] *)
Definition strip (s : string) : string := rstrip (lstrip s).

(** ** Python lists *)

(** [l[:n]]: a negative [n] counts from the end. *)
Definition slice_to {A : Type} (n : Z) (l : list A) : list A :=
  if n <? 0
  then firstn (List.length l - Z.to_nat (- n)) l
  else firstn (Z.to_nat n) l.

Definition is_nil {A : Type} (l : list A) : bool :=
  match l with [] => true | _ :: _ => false end.

(** ** Articles *)

(** The dictionary [fetch_rss] builds for an entry; [gather_news] adds the
    key ["source"] afterwards. *)
Record article : Type := mkArticle {
  title : string;
  link : string;
  desc : string;
  date : string;
  source : option string
}.

(** ** The relevance filter *)

(** [any(k in text for k in kw_lower)] for the article [a]. *)
Definition kw_match (kw_lower : list string) (a : article) : bool :=
  let text := lower (title a ++ " " ++ desc a)%string in
  existsb (fun k => contains text k) kw_lower.

(** The loop of [filter_articles], with its two accumulators. *)
Fixpoint filter_loop (kw_lower : list string) (articles matched rest : list article)
  : list article * list article :=
  match articles with
  | [] => (matched, rest)
  | a :: tl =>
      if kw_match kw_lower a
      then filter_loop kw_lower tl (matched ++ [a]) rest
      else filter_loop kw_lower tl matched (rest ++ [a])
  end.

Definition filter_articles (articles : list article) (keywords : list string)
    (max_items : Z) : list article :=
  let kw_lower := map lower keywords in
  let '(matched, rest) := filter_loop kw_lower articles [] [] in
  let combined := matched ++ rest in
  slice_to max_items combined.

(** An article matches a keyword set when the filter's test accepts it. *)
Definition matches (keywords : list string) (a : article) : bool :=
  kw_match (map lower keywords) a.

(** ** Regular expressions of the source *)

(** The text after the first [>] of [s], if there is one. *)
Fixpoint after_gt (s : string) : option string :=
  match s with
  | EmptyString => None
  | String c r => if Ascii.eqb c ">" then Some r else after_gt r
  end.

(** [s] is the text that follows a [<].  The pattern [<[^>]+>] matches at
    that [<] when [s] starts with a character other than [>] and a [>]
    follows; the greedy [[^>]+] stops at the first [>].  The result is the
    text after the match. *)
Definition tag_rest (s : string) : option string :=
  match s with
  | EmptyString => None
  | String c r => if Ascii.eqb c ">" then None else after_gt r
  end.

(** The match of [<[^>]+>] attempted at the head of [s]. *)
Definition tag_match (s : string) : option string :=
  match s with
  | EmptyString => None
  | String c r => if Ascii.eqb c "<" then tag_rest r else None
  end.

(** A value together with the equation that names it. *)
Definition inspect {A : Type} (a : A) : {b : A | a = b} := exist _ a eq_refl.

(** [re.sub(r"<[^>]+>", "", s)]: scan from the left; where the pattern
    matches, drop the match and go on after it; elsewhere keep the
    character and go on with the next one. *)
Equations? strip_tags (s : string) : string by wf (String.length s) lt :=
  strip_tags EmptyString := EmptyString;
  strip_tags (String c r) with inspect (tag_match (String c r)) => {
    | exist _ (Some r') _ := strip_tags r';
    | exist _ None _ := String c (strip_tags r) }.
Proof.
  assert (Hgt : forall s t, after_gt s = Some t ->
                          (String.length t < String.length s)%nat).
  { induction s as [|a s IH]; intros t; simpl; [discriminate|].
    destruct (Ascii.eqb a ">").
    - intros [= <-]. lia.
    - intros H. apply IH in H. lia. }
  simpl in e. destruct (Ascii.eqb c "<"); [|discriminate].
  destruct r as [|d r]; simpl in e; [discriminate|].
  destruct (Ascii.eqb d ">"); [discriminate|].
  apply Hgt in e. simpl. lia.
Qed.

(** The longest prefix of digits of [s], and what follows it. *)
Fixpoint span_digits (s : string) : string * string :=
  match s with
  | EmptyString => (EmptyString, EmptyString)
  | String c r =>
      if is_digit c
      then let '(d, t) := span_digits r in (String c d, t)
      else (EmptyString, s)
  end.

(** The match of [(\d+\.\d+)%] attempted at the head of [s]; the result is
    group 1.  Each [\d+] is greedy, and giving back digits leaves a digit
    where [\.] or [%] is required, so only the longest runs can match. *)
Definition rate_match (s : string) : option string :=
  match span_digits s with
  | (String a d1, String dot t) =>
      if Ascii.eqb dot "." then
        match span_digits t with
        | (String b d2, String pct _) =>
            if Ascii.eqb pct "%"
            then Some (String a d1 ++ "." ++ String b d2)%string
            else None
        | _ => None
        end
      else None
  | _ => None
  end.

(** [re.search(r"(\d+\.\d+)%", s)]: group 1 of the leftmost match. *)
Fixpoint search_rate (s : string) : option string :=
  match rate_match s with
  | Some g => Some g
  | None =>
      match s with
      | EmptyString => None
      | String _ r => search_rate r
      end
  end.

(** ** Element trees *)

(** An [xml.etree.ElementTree.Element]: tag, attributes, text, children. *)
Inductive element : Type :=
| Element (tag : string) (attrib : list (string * string))
    (text : option string) (children : list element).

Definition elem_tag (e : element) : string :=
  match e with Element t _ _ _ => t end.
Definition elem_attrib (e : element) : list (string * string) :=
  match e with Element _ a _ _ => a end.
Definition elem_text (e : element) : option string :=
  match e with Element _ _ t _ => t end.
Definition elem_children (e : element) : list element :=
  match e with Element _ _ _ cs => cs end.

(** All elements below [e], in document order. *)
Fixpoint descendants (e : element) : list element :=
  match e with
  | Element _ _ _ cs => flat_map (fun c => c :: descendants c) cs
  end.

Definition has_tag (tag : string) (e : element) : bool :=
  String.eqb (elem_tag e) tag.

(** [root.findall(".//tag")] *)
Definition findall (tag : string) (root : element) : list element :=
  filter (has_tag tag) (descendants root).

(** [el.find(tag)]: the first child with that tag. *)
Definition find_child (tag : string) (e : element) : option element :=
  List.find (has_tag tag) (elem_children e).

(** [attrib.get(key, default)] *)
Fixpoint attr_get (key : string) (a : list (string * string)) (default : string)
  : string :=
  match a with
  | [] => default
  | (k, v) :: tl => if String.eqb k key then v else attr_get key tl default
  end.

(** The tag [atom:name] under the namespace map of [fetch_rss]. *)
Definition atom (name : string) : string :=
  ("{http://www.w3.org/2005/Atom}" ++ name)%string.

(** ** Python values *)

(** What [json.loads] returns, and what the fields of a rate record hold.
    A float is carried by its [repr]. *)
Inductive pyval : Type :=
| PNone
| PBool (b : bool)
| PInt (z : Z)
| PFloat (repr : string)
| PStr (s : string)
| PList (l : list pyval)
| PDict (d : list (string * pyval)).

(** A dictionary with string keys, in insertion order. *)
Definition dict : Type := list (string * pyval).

Fixpoint dict_lookup (d : dict) (key : string) : option pyval :=
  match d with
  | [] => None
  | (k, v) :: tl => if String.eqb k key then Some v else dict_lookup tl key
  end.

(** [d.get(key, default)] *)
Definition dict_get (d : dict) (key : string) (default : pyval) : pyval :=
  match dict_lookup d key with
  | Some v => v
  | None => default
  end.

Fixpoint last_char (s : string) : option ascii :=
  match s with
  | EmptyString => None
  | String c EmptyString => Some c
  | String _ r => last_char r
  end.

(** ** Exceptions, outcomes and the log *)

Inductive exn : Type :=
| URLError
| HTTPError (status : Z)
| TimeoutError
| ParseError
| JSONDecodeError
| AttributeError
| IndexError
| KeyError
| TypeError
| OtherException (name : string).

Inductive outcome (A : Type) : Type :=
| Ok (a : A)
| Raise (e : exn).
Arguments Ok {A} a.
Arguments Raise {A} e.

(** The lines the code prints. *)
Inductive message : Type :=
| MsgFetchingFeeds
| MsgFeed (name : string)
| MsgFetchFailed (url : string) (e : exn)
| MsgRateFailed (e : exn).

Inductive event : Type :=
| Request (url agent : string) (timeout : Z)
| Printed (m : message).

Definition io (A : Type) : Type := list event -> outcome A * list event.

Definition ret {A : Type} (a : A) : io A := fun log => (Ok a, log).

Definition raise {A : Type} (e : exn) : io A := fun log => (Raise e, log).

Definition bind {A B : Type} (m : io A) (k : A -> io B) : io B :=
  fun log =>
    match m log with
    | (Ok a, log') => k a log'
    | (Raise e, log') => (Raise e, log')
    end.

Definition emit (ev : event) : io unit := fun log => (Ok tt, log ++ [ev]).

Definition print (m : message) : io unit := emit (Printed m).

Definition lift {A : Type} (o : outcome A) : io A := fun log => (o, log).

(** [try: m  except Exception as e: handler e] *)
Definition try_except {A : Type} (m : io A) (handler : exn -> io A) : io A :=
  fun log =>
    match m log with
    | (Ok a, log') => (Ok a, log')
    | (Raise e, log') => handler e log'
    end.

Declare Scope io_scope.
Delimit Scope io_scope with io.
Notation "x <- m ;; k" := (bind m (fun x => k))
  (at level 61, m at next level, right associativity) : io_scope.
Notation "m ;;; k" := (bind m (fun _ => k))
  (at level 61, right associativity) : io_scope.
Local Open Scope io_scope.

(** A loop [for x in l: body] that threads the variables [s] it updates. *)
Fixpoint for_each {A S : Type} (l : list A) (body : A -> S -> io S) (s : S) : io S :=
  match l with
  | [] => ret s
  | x :: tl => s' <- body x s ;; for_each tl body s'
  end.

(** ** The world *)

Record world : Type := mkWorld {
  (** [urlopen(Request(url, headers), timeout).read()] *)
  urlopen : string -> string -> Z -> outcome string;
  (** [ET.fromstring] *)
  xml_fromstring : string -> outcome element;
  (** [json.loads] *)
  json_loads : string -> outcome pyval;
  (** the substitution of character references inside [html.unescape] *)
  charref_sub : string -> string;
  (** [str(v)] for a value that is not a string *)
  py_repr : pyval -> string;
  (** [datetime.now().strftime(format)] *)
  strftime_now : string -> string
}.

Definition request (w : world) (url agent : string) (timeout : Z) : io string :=
  emit (Request url agent timeout) ;;; lift (urlopen w url agent timeout).

(** [html.unescape]: a text without [&] is returned as it is. *)
Definition unescape (w : world) (s : string) : string :=
  if contains s "&" then charref_sub w s else s.

(** [f"{v}"] *)
Definition py_str (w : world) (v : pyval) : string :=
  match v with
  | PStr s => s
  | _ => py_repr w v
  end.

(** [v.get(key, default)]: only a dictionary has [get]. *)
Definition get_item (v : pyval) (key : string) (default : pyval) : outcome pyval :=
  match v with
  | PDict d => Ok (dict_get d key default)
  | _ => Raise AttributeError
  end.

Definition py_get (v : pyval) (key : string) (default : pyval) : io pyval :=
  lift (get_item v key default).

(** [v[-1]]: the last item of a list, the last character of a string; a
    dictionary with string keys has no key [-1], and the other values
    cannot be indexed. *)
Definition last_item (v : pyval) : outcome pyval :=
  match v with
  | PList l =>
      match l with
      | [] => Raise IndexError
      | _ :: _ => Ok (List.last l PNone)
      end
  | PStr s =>
      match last_char s with
      | Some c => Ok (PStr (String c EmptyString))
      | None => Raise IndexError
      end
  | PDict _ => Raise KeyError
  | _ => Raise TypeError
  end.

Definition py_last (v : pyval) : io pyval := lift (last_item v).

(** ** Configuration *)

Record feed : Type := mkFeed { name : string; url : string }.

Definition RSS_FEEDS : list (string * list feed) :=
  [ ("raleigh_news",
      [ mkFeed "WRAL – Local News" "https://www.wral.com/rss/1148/";
        mkFeed "News & Observer – Real Estate"
          "https://www.newsobserver.com/news/business/real-estate-news/?outputType=atom";
        mkFeed "Triangle Business Journal"
          "https://www.bizjournals.com/triangle/rssfeed/breaking_news/" ]);
    ("construction_news",
      [ mkFeed "Construction Dive" "https://www.constructiondive.com/feeds/news/";
        mkFeed "Builder Online" "https://www.builderonline.com/rss";
        mkFeed "NAHB Now" "https://nahbnow.com/feed/" ]);
    ("materials_news",
      [ mkFeed "AGC – Construction Industry News" "https://www.agc.org/news/rss";
        mkFeed "Probuilder – Industry" "https://www.probuilder.com/rss.xml" ]) ].

Definition RALEIGH_KEYWORDS : list string :=
  [ "raleigh"; "durham"; "chapel hill"; "wake county"; "triangle";
    "cary"; "apex"; "morrisville"; "holly springs"; "fuquay";
    "downtown"; "north carolina"; "nc "; " nc," ].

Definition MORTGAGE_KEYWORDS : list string :=
  [ "mortgage"; "30-year"; "interest rate"; "fed"; "federal reserve";
    "housing market"; "home price"; "refinance" ].

Definition MATERIAL_KEYWORDS : list string :=
  [ "lumber"; "wood"; "steel"; "concrete"; "copper"; "material";
    "supply chain"; "tariff"; "price increase"; "construction cost";
    "framing"; "drywall"; "roofing"; "insulation" ].

(** [RSS_FEEDS[group]] *)
Fixpoint feeds_lookup (table : list (string * list feed)) (group : string)
  : io (list feed) :=
  match table with
  | [] => raise KeyError
  | (g, fs) :: tl => if String.eqb g group then ret fs else feeds_lookup tl group
  end.

(** ** The feed fetcher and its normalizer *)

Definition rss_agent : string :=
  "Mozilla/5.0 (compatible; HHoldingsNewsletter/1.0)".

(** The helpers [get] and [getat]:
    [unescape(el.text.strip()) if el is not None and el.text else ""]. *)
Definition text_of (w : world) (el : option element) : string :=
  match el with
  | Some e =>
      match elem_text e with
      | Some t => if str_nonempty t then unescape w (strip t) else ""
      | None => ""
      end
  | None => ""
  end.

(** [re.sub(r"<[^>]+>", "", desc)[:220].strip()] *)
Definition clean_desc (d : string) : string :=
  strip (str_take 220 (strip_tags d)).

(** The dictionary appended for an [item] of an RSS document. *)
Definition rss_article (w : world) (item : element) : article :=
  let get tag := text_of w (find_child tag item) in
  let desc := get "description" in
  let desc := clean_desc desc in
  {| title := get "title";
     link := get "link";
     desc := desc;
     date := if str_nonempty (get "pubDate") then str_take 16 (get "pubDate") else "";
     source := None |}.

(** The dictionary appended for an [entry] of an Atom document. *)
Definition atom_article (w : world) (entry : element) : article :=
  let getat tag := text_of w (find_child (atom tag) entry) in
  let link_el := find_child (atom "link") entry in
  let link :=
    match link_el with
    | Some el => attr_get "href" (elem_attrib el) ""
    | None => ""
    end in
  let desc := if str_nonempty (getat "summary") then getat "summary" else getat "content" in
  let desc := clean_desc desc in
  {| title := getat "title";
     link := link;
     desc := desc;
     date := if str_nonempty (getat "updated") then str_take 10 (getat "updated") else "";
     source := None |}.

(** What [fetch_rss] does with the parsed document: RSS first, Atom when
    that gave nothing. *)
Definition parse_feed (w : world) (root : element) : list article :=
  let items := map (rss_article w) (slice_to 8 (findall "item" root)) in
  if is_nil items
  then map (atom_article w) (slice_to 8 (findall (atom "entry") root))
  else items.

(** The body of the [try] block of [fetch_rss]. *)
Definition fetch_rss_try (w : world) (url : string) (timeout : Z)
  : io (list article) :=
  raw <- request w url rss_agent timeout ;;
  root <- lift (xml_fromstring w raw) ;;
  ret (parse_feed w root).

Definition fetch_rss (w : world) (url : string) (timeout : Z) : io (list article) :=
  try_except (fetch_rss_try w url timeout)
    (fun e => print (MsgFetchFailed url e) ;;; ret []).

(** ** The rate resolver *)

Definition pmms_url : string := "https://www.freddiemac.com/pmms/pmms.json".
Definition mnd_url : string := "https://www.mortgagenewsdaily.com/rss/mortgage-rates".

(** The first [try] block: Freddie Mac's JSON. *)
Definition rate_primary (w : world) : io dict :=
  raw <- request w pmms_url "Mozilla/5.0" 8 ;;
  data <- lift (json_loads w raw) ;;
  series <- py_get data "pmms30" (PList [PDict []]) ;;
  latest <- py_last series ;;
  rate <- py_get latest "pmms" (PStr "N/A") ;;
  week <- py_get latest "weeklyendingdate" (PStr "") ;;
  ret [ ("rate", PStr (py_str w rate ++ "%"));
        ("week", week);
        ("source", PStr "Freddie Mac Primary Mortgage Market Survey");
        ("link", PStr "https://www.freddiemac.com/pmms");
        ("change", PStr "") ].

(** The second [try] block: the headline of Mortgage News Daily.  [None]
    when the block falls through without returning. *)
Definition rate_secondary (w : world) : io (option dict) :=
  items <- fetch_rss w mnd_url 10 ;;
  match items with
  | first :: _ =>
      match search_rate (title first ++ desc first) with
      | Some g =>
          ret (Some [ ("rate", PStr (g ++ "%"));
                      ("week", PStr (strftime_now w "%B %d, %Y"));
                      ("source", PStr "Mortgage News Daily");
                      ("link", PStr "https://www.mortgagenewsdaily.com/mortgage-rates/30-year-fixed");
                      ("change", PStr (title first)) ])
      | None => ret None
      end
  | [] => ret None
  end.

(** The last fallback. *)
Definition rate_fallback (w : world) : dict :=
  [ ("rate", PStr "See source →");
    ("week", PStr (strftime_now w "%B %d, %Y"));
    ("source", PStr "Bankrate");
    ("link", PStr "https://www.bankrate.com/mortgages/30-year-mortgage-rate/");
    ("change", PStr "Click to see today's current rate") ].

Definition fetch_mortgage_rate (w : world) : io dict :=
  r1 <- try_except (r <- rate_primary w ;; ret (Some r))
          (fun e => print (MsgRateFailed e) ;;; ret None) ;;
  match r1 with
  | Some r => ret r
  | None =>
      r2 <- try_except (rate_secondary w) (fun _ => ret None) ;;
      match r2 with
      | Some r => ret r
      | None => ret (rate_fallback w)
      end
  end.

(** ** The digest assembler *)

(** [item["source"] = name] *)
Definition set_source (name : string) (a : article) : article :=
  {| title := title a; link := link a; desc := desc a; date := date a;
     source := Some name |}.

(** The loop body shared by the three groups: print the feed's name, fetch
    it and tag its items. *)
Definition fetch_tagged (w : world) (f : feed) : io (list article) :=
  print (MsgFeed (name f)) ;;;
  items <- fetch_rss w (url f) 10 ;;
  ret (map (set_source (name f)) items).

(** The loops over ["raleigh_news"] and ["materials_news"]. *)
Definition plain_body (w : world) (f : feed) (articles : list article)
  : io (list article) :=
  items <- fetch_tagged w f ;;
  ret (articles ++ items).

(** The loop over ["construction_news"], which also fills
    [mortgage_articles]. *)
Definition construction_body (w : world) (f : feed)
    (st : list article * list article) : io (list article * list article) :=
  let '(construction_articles, mortgage_articles) := st in
  items <- fetch_tagged w f ;;
  ret (construction_articles ++ items,
       mortgage_articles ++ filter_articles items MORTGAGE_KEYWORDS 2).

Record digest : Type := mkDigest {
  raleigh : list article;
  construction : list article;
  materials : list article;
  mortgage_news : list article
}.

Definition gather_news (w : world) : io digest :=
  print MsgFetchingFeeds ;;;
  feeds <- feeds_lookup RSS_FEEDS "raleigh_news" ;;
  raleigh_articles <- for_each feeds (plain_body w) [] ;;
  feeds <- feeds_lookup RSS_FEEDS "construction_news" ;;
  st <- for_each feeds (construction_body w) ([], []) ;;
  let '(construction_articles, mortgage_articles) := st in
  feeds <- feeds_lookup RSS_FEEDS "materials_news" ;;
  materials_articles <- for_each feeds (plain_body w) [] ;;
  ret {| raleigh := filter_articles raleigh_articles RALEIGH_KEYWORDS 5;
         construction :=
           filter_articles construction_articles
             (MATERIAL_KEYWORDS ++ ["home"; "build"; "permit"; "housing"]) 4;
         materials := filter_articles materials_articles MATERIAL_KEYWORDS 4;
         mortgage_news := slice_to 3 mortgage_articles |}.

(** The requests of a log, in order. *)
Fixpoint requested (log : list event) : list string :=
  match log with
  | [] => []
  | Request u _ _ :: tl => u :: requested tl
  | Printed _ :: tl => requested tl
  end.

(** ** The page builder *)

(** The templates below are the literal text of the f-strings of
    [build_email_html], cut at the insertions.  They are written with [|]
    where the source has a double quote (the source's templates do not use
    [|]), and [tpl] puts the double quote back. *)
Fixpoint tpl (s : string) : string :=
  match s with
  | EmptyString => EmptyString
  | String c r => String (if Ascii.eqb c "|" then "034"%char else c) (tpl r)
  end.

(** The paragraph of the fallback message, up to the message. *)
Definition fallback_open : string := tpl
"<p style=|color:#888;font-style:italic;padding:12px 0|>".

(** The source badge, up to the label. *)
Definition badge_open : string := tpl
"<span style=|font-size:11px;color:#fff;background:#1a4f8a;padding:2px 8px;border-radius:20px;font-weight:600;letter-spacing:.3px|>".

(** The summary paragraph, up to the summary. *)
Definition desc_open : string := tpl
"<p style=|margin:6px 0 0;color:#555;font-size:13.5px;line-height:1.6|>".

(** Part 0 of the card template. *)
Definition card_0 : string := tpl
"
            <div style=|background:#fff;border:1px solid #e8edf2;border-left:4px solid #1a6fc4;border-radius:6px;padding:14px 16px;margin-bottom:12px|>
              <div style=|margin-bottom:6px|>".

(** Part 1 of the card template. *)
Definition card_1 : string := tpl
"</div>
              <h3 style=|margin:0;font-size:15px;line-height:1.4|>
                <a href=|".

(** Part 2 of the card template. *)
Definition card_2 : string := tpl
"| target=|_blank|
                   style=|color:#1a4f8a;text-decoration:none;font-weight:700|>".

(** Part 3 of the card template. *)
Definition card_3 : string := tpl
"</a>
              </h3>
              ".

(** Part 4 of the card template. *)
Definition card_4 : string := tpl
"
            </div>".

(** Part 0 of the block of related market news. *)
Definition related_0 : string := tpl
"
        <div style=|margin-top:16px|>
          <p style=|font-weight:700;color:#333;margin:0 0 8px;font-size:13px;text-transform:uppercase;letter-spacing:.5px|>Related Market News</p>
          ".

(** Part 1 of the block of related market news. *)
Definition related_1 : string := tpl
"
        </div>".

(** The note paragraph, up to the note. *)
Definition change_open : string := tpl
"<p style=|margin:10px 0 0;color:#444;font-size:13px;font-family:Arial,sans-serif;font-style:italic|>".

(** Part 0 of the page template. *)
Definition page_0 : string := tpl
"<!DOCTYPE html>
<html lang=|en|>
<head>
<meta charset=|UTF-8|>
<meta name=|viewport| content=|width=device-width,initial-scale=1|>
<title>H Holdings Daily Brief – ".

(** Part 1 of the page template. *)
Definition page_1 : string := tpl
"</title>
</head>
<body style=|margin:0;padding:0;background:#f0f4f8;font-family:'Georgia',serif|>

<!-- WRAPPER -->
<table width=|100%| cellpadding=|0| cellspacing=|0| style=|background:#f0f4f8;padding:24px 0|>
<tr><td align=|center|>
<table width=|640| cellpadding=|0| cellspacing=|0| style=|max-width:640px;width:100%|>

  <!-- HEADER -->
  <tr><td style=|background:linear-gradient(135deg,#0d2f5e 0%,#1a6fc4 100%);border-radius:10px 10px 0 0;padding:32px 36px 28px|>
    <p style=|margin:0 0 4px;color:#7eb8f7;font-size:12px;letter-spacing:2px;text-transform:uppercase;font-family:Arial,sans-serif|>H Holdings</p>
    <h1 style=|margin:0 0 6px;color:#fff;font-size:26px;font-weight:700;line-height:1.2|>Daily Construction &amp; Real Estate Brief</h1>
    <p style=|margin:0;color:#a8cef5;font-size:14px;font-family:Arial,sans-serif|>".

(** Part 2 of the page template. *)
Definition page_2 : string := tpl
"</p>
  </td></tr>

  <!-- BODY -->
  <tr><td style=|background:#fff;padding:0 36px 28px|>

    <!-- MORTGAGE RATE HERO -->
    <div style=|background:linear-gradient(135deg,#f0f7ff 0%,#dceeff 100%);border:1px solid #b8d9f8;border-radius:8px;padding:22px 24px;margin:24px 0 28px|>
      <p style=|margin:0 0 4px;color:#1a4f8a;font-size:11px;font-weight:700;text-transform:uppercase;letter-spacing:1px;font-family:Arial,sans-serif|>📈 30-Year Fixed Mortgage Rate</p>
      <div style=|display:flex;align-items:baseline;gap:12px;flex-wrap:wrap|>
        <span style=|font-size:44px;font-weight:700;color:".

(** Part 3 of the page template. *)
Definition page_3 : string := tpl
";line-height:1;font-family:Arial,sans-serif|>".

(** Part 4 of the page template. *)
Definition page_4 : string := tpl
"</span>
        <div>
          <p style=|margin:0;color:#555;font-size:13px;font-family:Arial,sans-serif|>Weekly Average · ".

(** Part 5 of the page template. *)
Definition page_5 : string := tpl
"</p>
          <p style=|margin:3px 0 0;font-size:12px;font-family:Arial,sans-serif|><a href=|".

(** Part 6 of the page template. *)
Definition page_6 : string := tpl
"| style=|color:#1a6fc4;text-decoration:none|>Source: ".

(** Part 7 of the page template. *)
Definition page_7 : string := tpl
" →</a></p>
        </div>
      </div>
      ".

(** Part 8 of the page template. *)
Definition page_8 : string := tpl
"
    </div>

    <!-- RALEIGH NEWS -->
    <h2 style=|color:#0d2f5e;font-size:18px;border-bottom:2px solid #1a6fc4;padding-bottom:8px;margin:0 0 16px;font-family:Arial,sans-serif|>
      🏙️ Raleigh &amp; Downtown Real Estate
    </h2>
    ".

(** Part 9 of the page template. *)
Definition page_9 : string := tpl
"

    <!-- BUILDING MATERIALS -->
    <h2 style=|color:#0d2f5e;font-size:18px;border-bottom:2px solid #1a6fc4;padding-bottom:8px;margin:24px 0 16px;font-family:Arial,sans-serif|>
      📦 Building Materials &amp; Pricing
    </h2>
    ".

(** Part 10 of the page template. *)
Definition page_10 : string := tpl
"

    <!-- CONSTRUCTION NEWS -->
    <h2 style=|color:#0d2f5e;font-size:18px;border-bottom:2px solid #1a6fc4;padding-bottom:8px;margin:24px 0 16px;font-family:Arial,sans-serif|>
      🏗️ New Home Construction News
    </h2>
    ".

(** Part 11 of the page template. *)
Definition page_11 : string := tpl
"

    ".

(** Part 12 of the page template. *)
Definition page_12 : string := tpl
"

  </td></tr>

  <!-- FOOTER -->
  <tr><td style=|background:#0d2f5e;border-radius:0 0 10px 10px;padding:20px 36px;text-align:center|>
    <p style=|margin:0 0 4px;color:#7eb8f7;font-size:13px;font-family:Arial,sans-serif;font-weight:700|>H Holdings</p>
    <p style=|margin:0;color:#a8cef5;font-size:12px;font-family:Arial,sans-serif|>Automated daily brief · Generated ".

(** Part 13 of the page template. *)
Definition page_13 : string := tpl
"</p>
  </td></tr>

</table>
</td></tr>
</table>
</body>
</html>".

(** The truth value of a Python value; a float is zero when its [repr] is
    [0.0] or [-0.0]. *)
Definition py_truthy (v : pyval) : bool :=
  match v with
  | PNone => false
  | PBool b => b
  | PInt z => negb (z =? 0)
  | PFloat r => negb (String.eqb r "0.0" || String.eqb r "-0.0")
  | PStr s => str_nonempty s
  | PList l => negb (is_nil l)
  | PDict d => negb (is_nil d)
  end.

(** [d[key]] *)
Definition dict_item (d : dict) (key : string) : outcome pyval :=
  match dict_lookup d key with
  | Some v => Ok v
  | None => Raise KeyError
  end.

Definition obind {A B : Type} (o : outcome A) (k : A -> outcome B) : outcome B :=
  match o with
  | Ok a => k a
  | Raise e => Raise e
  end.

(** [source_badge]: shown when [a.get("source")] is a string that is not
    empty. *)
Definition source_badge (a : article) : string :=
  match source a with
  | Some s => if str_nonempty s then (badge_open ++ s ++ "</span>")%string else ""
  | None => ""
  end.

(** [desc_html] *)
Definition desc_html (a : article) : string :=
  if str_nonempty (desc a) then (desc_open ++ desc a ++ "</p>")%string else "".

(** The card appended for the article [a]. *)
Definition card (a : article) : string :=
  (card_0 ++ source_badge a ++ card_1 ++ link a ++ card_2 ++ title a
   ++ card_3 ++ desc_html a ++ card_4)%string.

Definition article_cards (articles : list article) (fallback_msg : string) : string :=
  if is_nil articles
  then (fallback_open ++ fallback_msg ++ "</p>")%string
  else String.concat "" (map card articles).

(** The block [mortgage_news_html]. *)
Definition mortgage_news_html (news : digest) : string :=
  if is_nil (mortgage_news news)
  then ""
  else (related_0
        ++ article_cards (slice_to 2 (mortgage_news news)) "No new stories today."
        ++ related_1)%string.

(** The note under the rate: shown when [mortgage.get("change")] is
    true. *)
Definition change_html (w : world) (mortgage : dict) : string :=
  match dict_lookup mortgage "change" with
  | Some v => if py_truthy v then (change_open ++ py_str w v ++ "</p>")%string else ""
  | None => ""
  end.

Definition build_email_html (w : world) (mortgage : dict) (news : digest)
  : outcome string :=
  let today := strftime_now w "%A, %B %d, %Y" in
  let rate_color := "#1a6fc4" in
  let related := mortgage_news_html news in
  obind (dict_item mortgage "rate") (fun rate =>
  obind (dict_item mortgage "week") (fun week =>
  obind (dict_item mortgage "link") (fun href =>
  obind (dict_item mortgage "source") (fun label =>
  Ok (page_0 ++ today ++ page_1 ++ today ++ page_2 ++ rate_color
      ++ page_3 ++ py_str w rate ++ page_4 ++ py_str w week
      ++ page_5 ++ py_str w href ++ page_6 ++ py_str w label
      ++ page_7 ++ change_html w mortgage
      ++ page_8
      ++ article_cards (raleigh news)
           "No Raleigh stories found today — check back tomorrow."
      ++ page_9
      ++ article_cards (materials news) "No material pricing updates today."
      ++ page_10
      ++ article_cards (construction news) "No construction news today."
      ++ page_11 ++ related ++ page_12 ++ today ++ page_13)%string)))).

(** ** Delivery and the run *)

(** The message handed to [sendmail]: its three headers and its HTML
    part. *)
Record mime : Type := mkMime {
  mime_subject : string;
  mime_from : string;
  mime_to : string;
  mime_html : string
}.

(** The SMTP collaborator: opening the session, [login], [sendmail], and
    the [QUIT] that leaving the [with] block sends. *)
Record mailer : Type := mkMailer {
  smtp_connect : string -> Z -> outcome unit;
  smtp_login : string -> string -> outcome unit;
  smtp_sendmail : string -> list string -> mime -> outcome unit;
  smtp_quit : outcome unit
}.

(** The two values read from the environment. *)
Record settings : Type := mkSettings {
  GMAIL_ADDRESS : string;
  GMAIL_APP_PASS : string
}.

Definition RECIPIENTS : list string := ["brad@hholdings.us"; "info@hholdings.us"].

(** The lines that [run] and [send_email] print. *)
Inductive run_message : Type :=
| MsgRuleTop
| MsgTitle (stamp : string)
| MsgRuleBottom
| MsgFetchingRate
| MsgRate (rate label : string)
| MsgSending (recipients : list string)
| MsgSent.

Inductive run_event : Type :=
| Pipeline (ev : event)
| RunPrinted (m : run_message)
| SmtpConnect (host : string) (port : Z)
| SmtpLogin (user password : string)
| SmtpSendmail (sender : string) (recipients : list string) (msg : mime)
| SmtpQuit.

Definition rio (A : Type) : Type := list run_event -> outcome A * list run_event.

Definition rret {A : Type} (a : A) : rio A := fun log => (Ok a, log).

Definition rbind {A B : Type} (m : rio A) (k : A -> rio B) : rio B :=
  fun log =>
    match m log with
    | (Ok a, log') => k a log'
    | (Raise e, log') => (Raise e, log')
    end.

Definition rprint (m : run_message) : rio unit :=
  fun log => (Ok tt, log ++ [RunPrinted m]).

Definition rlift {A : Type} (o : outcome A) : rio A := fun log => (o, log).

(** A call to the collaborator: the call is logged, then it returns or
    raises. *)
Definition call {A : Type} (ev : run_event) (o : outcome A) : rio A :=
  fun log => (o, log ++ [ev]).

(** A computation of the pipeline inside a run; its events follow those
    logged so far. *)
Definition of_io {A : Type} (m : io A) : rio A :=
  fun log => let '(o, l) := m [] in (o, log ++ map Pipeline l).

(** [with ... as server: body]: [QUIT] is sent when the block is left,
    normally or not; an exception of [QUIT] replaces the outcome of the
    block. *)
Definition with_session {A : Type} (mx : mailer) (body : rio A) : rio A :=
  fun log =>
    let '(o, l) := body log in
    match smtp_quit mx with
    | Ok _ => (o, l ++ [SmtpQuit])
    | Raise e => (Raise e, l ++ [SmtpQuit])
    end.

Declare Scope rio_scope.
Delimit Scope rio_scope with rio.
Notation "x <- m ;; k" := (rbind m (fun x => k))
  (at level 61, m at next level, right associativity) : rio_scope.
Notation "m ;;; k" := (rbind m (fun _ => k))
  (at level 61, right associativity) : rio_scope.

Definition send_email (mx : mailer) (html_body subject : string)
    (recipients : list string) (gmail_addr gmail_pass : string) : rio unit :=
  let msg := {| mime_subject := subject;
                mime_from := ("H Holdings Daily Brief <" ++ gmail_addr ++ ">")%string;
                mime_to := String.concat ", " recipients;
                mime_html := html_body |} in
  (rprint (MsgSending recipients) ;;;
   call (SmtpConnect "smtp.gmail.com" 465) (smtp_connect mx "smtp.gmail.com" 465) ;;;
   with_session mx
     (call (SmtpLogin gmail_addr gmail_pass) (smtp_login mx gmail_addr gmail_pass) ;;;
      call (SmtpSendmail gmail_addr recipients msg)
        (smtp_sendmail mx gmail_addr recipients msg)) ;;;
   rprint MsgSent)%rio.

Definition run (w : world) (mx : mailer) (cfg : settings) : rio unit :=
  (rprint MsgRuleTop ;;;
   rprint (MsgTitle (strftime_now w "%Y-%m-%d %H:%M")) ;;;
   rprint MsgRuleBottom ;;;
   rprint MsgFetchingRate ;;;
   mortgage <- of_io (fetch_mortgage_rate w) ;;
   rate <- rlift (dict_item mortgage "rate") ;;
   label <- rlift (dict_item mortgage "source") ;;
   rprint (MsgRate (py_str w rate) (py_str w label)) ;;;
   news <- of_io (gather_news w) ;;
   html <- rlift (build_email_html w mortgage news) ;;
   let subject := ("H Holdings Daily Brief – " ++ strftime_now w "%A, %B %d")%string in
   send_email mx html subject RECIPIENTS (GMAIL_ADDRESS cfg) (GMAIL_APP_PASS cfg))%rio.

(** The digest [d] with another mortgage bucket. *)
Definition with_mortgage_news (d : digest) (l : list article) : digest :=
  {| raleigh := raleigh d; construction := construction d;
     materials := materials d; mortgage_news := l |}.

(** A mailer whose four operations succeed, and one whose login is
    refused. *)
Definition mail_ok : mailer :=
  {| smtp_connect := fun _ _ => Ok tt; smtp_login := fun _ _ => Ok tt;
     smtp_sendmail := fun _ _ _ => Ok tt; smtp_quit := Ok tt |}.

Definition mail_refused : mailer :=
  {| smtp_connect := fun _ _ => Ok tt;
     smtp_login := fun _ _ => Raise (OtherException "SMTPAuthenticationError");
     smtp_sendmail := fun _ _ _ => Ok tt; smtp_quit := Ok tt |}.

(** An event of the SMTP session. *)
Definition is_smtp (ev : run_event) : bool :=
  match ev with
  | Pipeline _ | RunPrinted _ => false
  | _ => true
  end.

(** ** Example inputs *)

Definition plain (t d : string) : article :=
  {| title := t; link := ""; desc := d; date := ""; source := None |}.

Definition lumber_story : article :=
  plain "Lumber prices jump 12% amid tariff threat" "".

Definition bridge_story : article :=
  plain "New bridge opens" "Traffic is flowing again.".

(** *** Documents *)

Definition leaf (tag text : string) : element :=
  Element tag [] (Some text) [].

Definition rss_item (t d : string) : element :=
  Element "item" [] None [leaf "title" t; leaf "description" d].

Definition rss_doc (items : list element) : element :=
  Element "rss" [] None [Element "channel" [] None items].

Definition atom_entry (t href summary : string) : element :=
  Element (atom "entry") [] None
    [ leaf (atom "title") t;
      Element (atom "link") [("href", href)] None [];
      leaf (atom "summary") summary ].

Definition atom_doc (entries : list element) : element :=
  Element (atom "feed") [] None entries.

(** A summary that compares two numbers. *)
Definition comparison_doc : element :=
  rss_doc [rss_item "Starts up" "Permits: 5 > 3 this week"].

Definition bold_doc : element :=
  rss_doc [rss_item "Lumber <b>up</b>" "<p>Prices <b>rose</b> again.</p>"].

Definition bridge_doc : element :=
  rss_doc [rss_item "New bridge opens" "Traffic is flowing again."].

Definition triangle_atom_doc : element :=
  atom_doc [atom_entry "Triangle home sales" "https://example.org/a" "Sales rose."].

Definition rates_doc : element :=
  rss_doc [rss_item "30 Year Fixed Rate at 6.87%" "Rates moved."].

(** The document of the second end-to-end scenario. *)
Definition pmms_sample : pyval :=
  PDict [("pmms30",
          PList [PDict [("pmms", PStr "6.72");
                        ("weeklyendingdate", PStr "2024-05-09")]])].

(** *** Worlds *)

Fixpoint table_get {A : Type} (table : list (string * A)) (key : string) : option A :=
  match table with
  | [] => None
  | (k, v) :: tl => if String.eqb k key then Some v else table_get tl key
  end.

(** A world that answers from tables indexed by URL: [down] lists the
    locations whose request fails and how, [feeds] the parsed feed
    documents, [rates] the parsed JSON documents; a location in no table
    is unreachable.  The body of a response is named by its URL.  The
    texts served hold no character reference, so the entity table is never
    consulted. *)
Definition serving (down : list (string * exn)) (feeds : list (string * element))
    (rates : list (string * pyval)) : world :=
  {| urlopen := fun u _ _ =>
       match table_get down u with
       | Some e => Raise e
       | None =>
           match table_get feeds u, table_get rates u with
           | None, None => Raise URLError
           | _, _ => Ok u
           end
       end;
     xml_fromstring := fun raw =>
       match table_get feeds raw with
       | Some root => Ok root
       | None => Raise ParseError
       end;
     json_loads := fun raw =>
       match table_get rates raw with
       | Some v => Ok v
       | None => Raise JSONDecodeError
       end;
     charref_sub := fun s => s;
     py_repr := fun _ => "";
     strftime_now := fun _ => "May 09, 2024" |}.

(** Nothing is reachable. *)
Definition offline : world := serving [] [] [].

(** ** What a fetch amounts to *)

(** The outcome of the first two steps of [fetch_rss]: the request, then
    the parser. *)
Definition fetch_result (w : world) (url : string) (timeout : Z) : outcome element :=
  match urlopen w url rss_agent timeout with
  | Ok raw => xml_fromstring w raw
  | Raise e => Raise e
  end.

(** The articles a feed contributes. *)
Definition feed_items (w : world) (url : string) (timeout : Z) : list article :=
  match fetch_result w url timeout with
  | Ok root => parse_feed w root
  | Raise _ => []
  end.

(** What a fetch adds to the log. *)
Definition fetch_log (w : world) (url : string) (timeout : Z) : list event :=
  Request url rss_agent timeout ::
  match fetch_result w url timeout with
  | Ok _ => []
  | Raise e => [Printed (MsgFetchFailed url e)]
  end.

(** The tagged articles of a configured feed, and its part of the log. *)
Definition tagged_items (w : world) (f : feed) : list article :=
  map (set_source (name f)) (feed_items w (url f) 10).

Definition feed_log (w : world) (f : feed) : list event :=
  Printed (MsgFeed (name f)) :: fetch_log w (url f) 10.

(** The feeds of a group, [[]] for a group that is not configured. *)
Definition group (g : string) : list feed :=
  match table_get RSS_FEEDS g with
  | Some fs => fs
  | None => []
  end.

(** Every configured location, in the order of the configuration. *)
Definition all_feed_urls : list string :=
  map url (flat_map snd RSS_FEEDS).

(** ** Vocabulary of the properties *)

(** No complete tag: wherever a [<] is followed, after at least one
    character, by a [>], the character right after the [<] is a [>], so
    that [<[^>]+>] matches nowhere. *)
Definition tag_free (s : string) : Prop :=
  forall pre c mid post,
    s = (pre ++ String "<" (String c (mid ++ String ">" post)))%string ->
    c = ">"%char.

(** A tag delimiter occurs in [s]. *)
Definition has_delimiter (s : string) : bool :=
  contains s "<" || contains s ">".

(** The keys of a rate record. *)
Definition record_keys : list string :=
  ["rate"; "week"; "source"; "link"; "change"].

(** The article with its title and summary in lower case. *)
Definition lower_article (a : article) : article :=
  {| title := lower (title a); link := link a; desc := lower (desc a);
     date := date a; source := source a |}.

(** Every character of [s] is a digit. *)
Fixpoint all_digits (s : string) : bool :=
  match s with
  | EmptyString => true
  | String c r => is_digit c && all_digits r
  end.

(** [g] is a decimal number: digits, a point, digits. *)
Definition decimal (g : string) : Prop :=
  exists d1 d2,
    g = (d1 ++ "." ++ d2)%string
    /\ d1 <> EmptyString /\ d2 <> EmptyString
    /\ all_digits d1 = true /\ all_digits d2 = true.

(** The first character of [s], if any, is not white space; likewise the
    last. *)
Definition no_leading_space (s : string) : Prop :=
  forall c r, s = String c r -> is_space c = false.

Definition no_trailing_space (s : string) : Prop :=
  forall c, last_char s = Some c -> is_space c = false.

(** The article [a] comes from a feed of the group [g], and carries that
    feed's name. *)
Definition from_group (w : world) (g : string) (a : article) : Prop :=
  exists f, In f (group g) /\ In a (tagged_items w f) /\ source a = Some (name f).

(** Every configured feed. *)
Definition all_feeds : list feed := flat_map snd RSS_FEEDS.

(** [key in d] *)
Definition has_key (d : dict) (key : string) : bool :=
  match dict_lookup d key with
  | Some _ => true
  | None => false
  end.

(** A field of a record is populated when the key is present and its
    value is true in Python's sense: not [None], not an empty string. *)
Definition field_populated (r : dict) (key : string) : bool :=
  match dict_lookup r key with
  | Some v => py_truthy v
  | None => false
  end.

(** Every field of a rate record is populated. *)
Definition record_populated (r : dict) : bool :=
  forallb (field_populated r) record_keys.

(** A document whose latest entry has an empty rate and no week:
    [{"pmms30": [{"pmms": "", "weeklyendingdate": null}]}]. *)
Definition blank_entry_sample : pyval :=
  PDict [("pmms30",
          PList [PDict [("pmms", PStr ""); ("weeklyendingdate", PNone)]])].

(** * Properties *)

(** ** Slices *)

Lemma slice_to_nonneg {A : Type} (n : Z) (l : list A) :
  0 <= n -> slice_to n l = firstn (Z.to_nat n) l.
Proof.
  intros Hn. unfold slice_to.
  destruct (Z.ltb_spec n 0) as [Hlt|_]; [lia | reflexivity].
Qed.

Lemma slice_to_all {A : Type} (n : Z) (l : list A) :
  Z.of_nat (List.length l) <= n -> slice_to n l = l.
Proof.
  intros Hn. rewrite slice_to_nonneg by lia.
  apply firstn_all2. lia.
Qed.

Lemma slice_to_length {A : Type} (n : Z) (l : list A) :
  0 <= n -> Z.of_nat (List.length (slice_to n l)) <= n.
Proof.
  intros Hn. rewrite slice_to_nonneg by exact Hn.
  pose proof (firstn_le_length (Z.to_nat n) l) as Hle.
  rewrite length_firstn. lia.
Qed.

Lemma nth_error_firstn_some {A : Type} (k i : nat) (l : list A) (a : A) :
  nth_error (firstn k l) i = Some a -> nth_error l i = Some a.
Proof.
  revert i l; induction k as [|k IH]; intros i l; simpl.
  - destruct i; discriminate.
  - destruct l as [|x l]; [destruct i; discriminate|].
    destruct i as [|i]; simpl; [trivial | apply IH].
Qed.

(** ** The relevance filter *)

Section Filter.

Variable keywords : list string.

Lemma filter_loop_spec (articles matched rest : list article) :
  filter_loop (map lower keywords) articles matched rest
  = (matched ++ filter (matches keywords) articles,
     rest ++ filter (fun a => negb (matches keywords a)) articles).
Proof.
  revert matched rest.
  induction articles as [|a tl IH]; intros matched rest; simpl.
  - now rewrite !app_nil_r.
  - unfold matches.
    destruct (kw_match (map lower keywords) a); simpl;
      rewrite IH, <- app_assoc; reflexivity.
Qed.

(** The filter is a stable partition followed by a slice. *)
Lemma filter_articles_partition (articles : list article) (max_items : Z) :
  filter_articles articles keywords max_items
  = slice_to max_items
      (filter (matches keywords) articles
       ++ filter (fun a => negb (matches keywords a)) articles).
Proof.
  unfold filter_articles. rewrite filter_loop_spec. reflexivity.
Qed.

Lemma partition_permutation (articles : list article) :
  Permutation articles
    (filter (matches keywords) articles
     ++ filter (fun a => negb (matches keywords a)) articles).
Proof.
  induction articles as [|a tl IH]; simpl; [constructor|].
  destruct (matches keywords a); simpl.
  - now constructor.
  - now apply Permutation_cons_app.
Qed.

(** In the partition, an article that matches stands before one that does
    not. *)
Lemma partition_ordered (articles : list article) (i j : nat) (a b : article) :
  nth_error (filter (matches keywords) articles
             ++ filter (fun a => negb (matches keywords a)) articles) i = Some a ->
  nth_error (filter (matches keywords) articles
             ++ filter (fun a => negb (matches keywords a)) articles) j = Some b ->
  matches keywords a = true -> matches keywords b = false ->
  (i < j)%nat.
Proof.
  intros Ha Hb Hma Hmb.
  set (m := filter (matches keywords) articles) in *.
  destruct (Nat.lt_ge_cases i (List.length m)) as [Hi|Hi].
  - destruct (Nat.lt_ge_cases j (List.length m)) as [Hj|Hj]; [|lia].
    rewrite nth_error_app1 in Hb by exact Hj.
    apply nth_error_In in Hb. apply filter_In in Hb.
    destruct Hb as [_ Hb]. congruence.
  - rewrite nth_error_app2 in Ha by exact Hi.
    apply nth_error_In in Ha. apply filter_In in Ha.
    destruct Ha as [_ Ha]. rewrite Hma in Ha. discriminate.
Qed.

End Filter.

(** C1 (as amended): for a cap [max_items] that is not negative, the filter
    returns the articles that match a keyword, in their order, followed by
    the others, in their order, cut to the first [max_items]; so the output
    has at most [max_items] articles, and in it every article that matches
    stands before every article that does not. *)
Theorem filter_articles_stable_partition
    (articles : list article) (keywords : list string) (max_items : Z) :
  0 <= max_items ->
  let out := filter_articles articles keywords max_items in
  out = firstn (Z.to_nat max_items)
          (filter (matches keywords) articles
           ++ filter (fun a => negb (matches keywords a)) articles)
  /\ Z.of_nat (List.length out) <= max_items
  /\ (forall i j a b,
        nth_error out i = Some a -> nth_error out j = Some b ->
        matches keywords a = true -> matches keywords b = false ->
        (i < j)%nat).
Proof.
  intros Hn out. subst out. rewrite filter_articles_partition.
  split; [apply slice_to_nonneg; exact Hn|].
  split; [apply slice_to_length; exact Hn|].
  rewrite slice_to_nonneg by exact Hn.
  intros i j a b Ha Hb. apply nth_error_firstn_some in Ha, Hb.
  now apply partition_ordered with (articles := articles) (a := a) (b := b).
Qed.

Lemma filter_articles_stable_partition_witness :
  0 <= 1
  /\ filter_articles [bridge_story; lumber_story] MATERIAL_KEYWORDS 1
     = [lumber_story].
Proof.
  split; [lia|].
  destruct (filter_articles_stable_partition
              [bridge_story; lumber_story] MATERIAL_KEYWORDS 1 ltac:(lia))
    as [Heq _].
  rewrite Heq. vm_compute. reflexivity.
Defined.

(** C1 (as stated) fails for a negative cap: the slice [combined[:-1]] drops
    the last article only, and the output is longer than the cap. *)
Lemma filter_articles_negative_cap :
  filter_articles [lumber_story; bridge_story] MATERIAL_KEYWORDS (-1)
  = [lumber_story]
  /\ ~ (Z.of_nat (List.length
          (filter_articles [lumber_story; bridge_story] MATERIAL_KEYWORDS (-1)))
        <= -1).
Proof.
  split; [vm_compute; reflexivity | vm_compute; intros H; apply H; reflexivity].
Qed.

(** C7: when the input has at most [max_items] articles, the output has the
    length of the input and holds every input article (it is a
    rearrangement of the input). *)
Theorem filter_articles_keeps_all
    (articles : list article) (keywords : list string) (max_items : Z) :
  Z.of_nat (List.length articles) <= max_items ->
  let out := filter_articles articles keywords max_items in
  List.length out = List.length articles
  /\ (forall a, In a articles -> In a out)
  /\ Permutation articles out.
Proof.
  intros Hn out. subst out. rewrite filter_articles_partition.
  pose proof (partition_permutation keywords articles) as Hperm.
  rewrite slice_to_all.
  - split; [symmetry; apply Permutation_length; exact Hperm|].
    split; [|exact Hperm].
    intros a Ha. apply Permutation_in with (l := articles); assumption.
  - rewrite <- (Permutation_length Hperm). exact Hn.
Qed.

Lemma filter_articles_keeps_all_witness :
  Z.of_nat (List.length [bridge_story; lumber_story]) <= 4
  /\ Permutation [bridge_story; lumber_story]
       (filter_articles [bridge_story; lumber_story] MATERIAL_KEYWORDS 4).
Proof.
  split; [simpl; lia|].
  apply (filter_articles_keeps_all [bridge_story; lumber_story] MATERIAL_KEYWORDS 4).
  simpl; lia.
Defined.

(** ** Strings *)

Lemma str_app_assoc (a b c : string) :
  ((a ++ b) ++ c)%string = (a ++ (b ++ c))%string.
Proof.
  induction a as [|x a IH]; simpl; [reflexivity | now rewrite IH].
Qed.

Lemma str_app_length (a b : string) :
  String.length (a ++ b) = (String.length a + String.length b)%nat.
Proof.
  induction a as [|x a IH]; simpl; [reflexivity | now rewrite IH].
Qed.

Lemma str_take_length (n : nat) (s : string) :
  (String.length (str_take n s) <= n)%nat.
Proof.
  revert s; induction n as [|n IH]; intros [|c s]; simpl; try lia.
  specialize (IH s). lia.
Qed.

Lemma str_take_prefix (n : nat) (s : string) :
  exists t, s = (str_take n s ++ t)%string.
Proof.
  revert s; induction n as [|n IH]; intros s.
  - exists s. destruct s; reflexivity.
  - destruct s as [|c s]; [exists EmptyString; reflexivity|].
    destruct (IH s) as [t Ht]. exists t. simpl. now rewrite <- Ht.
Qed.

Lemma lstrip_suffix (s : string) :
  exists p, s = (p ++ lstrip s)%string.
Proof.
  induction s as [|c s [p Hp]]; [exists EmptyString; reflexivity|].
  simpl. destruct (is_space c).
  - exists (String c p). simpl. now rewrite <- Hp.
  - exists EmptyString. reflexivity.
Qed.

Lemma rstrip_prefix (s : string) :
  exists t, s = (rstrip s ++ t)%string.
Proof.
  induction s as [|c s [t Ht]]; [exists EmptyString; reflexivity|].
  simpl. destruct (rstrip s) as [|d r] eqn:E.
  - destruct (is_space c).
    + exists (String c s). reflexivity.
    + exists s. reflexivity.
  - exists t. simpl. now rewrite Ht at 1.
Qed.

Lemma strip_length (s : string) :
  (String.length (strip s) <= String.length s)%nat.
Proof.
  unfold strip.
  destruct (lstrip_suffix s) as [p Hp].
  destruct (rstrip_prefix (lstrip s)) as [t Ht].
  rewrite Hp at 2. rewrite Ht at 2. rewrite !str_app_length. lia.
Qed.

(** [contains s p] holds exactly when [p] is a substring of [s]. *)
Lemma starts_with_spec (s p : string) :
  starts_with s p = true <-> exists t, s = (p ++ t)%string.
Proof.
  revert s; induction p as [|a p IH]; intros s.
  - split; [exists s; reflexivity | destruct s; reflexivity].
  - destruct s as [|b s]; simpl.
    + split; [discriminate | intros [t Ht]; discriminate].
    + rewrite andb_true_iff, IH. split.
      * intros [Hab [t Ht]]. apply Ascii.eqb_eq in Hab. exists t. congruence.
      * intros [t Ht]. injection Ht as -> Ht. split.
        -- apply Ascii.eqb_refl.
        -- exists t. exact Ht.
Qed.

Lemma contains_spec (s p : string) :
  contains s p = true <-> exists pre post, s = (pre ++ p ++ post)%string.
Proof.
  induction s as [|c s IH].
  - cbn [contains]. rewrite orb_false_r, starts_with_spec. split.
    + intros [t Ht]. exists EmptyString, t. exact Ht.
    + intros [[|x pre] [post H]]; [exists post; exact H | discriminate].
  - cbn [contains]. rewrite orb_true_iff, starts_with_spec, IH. split.
    + intros [[t Ht] | [pre [post H]]].
      * exists EmptyString, t. exact Ht.
      * exists (String c pre), post. simpl. now rewrite H.
    + intros [[|x pre] [post H]].
      * left. exists post. exact H.
      * right. exists pre, post. simpl in H. congruence.
Qed.

(** What the filter's test means: the lowercased text "title, space,
    summary" contains one of the lowercased keywords. *)
Lemma matches_spec (keywords : list string) (a : article) :
  matches keywords a = true
  <-> exists k pre post,
        In k keywords
        /\ lower (title a ++ " " ++ desc a) = (pre ++ lower k ++ post)%string.
Proof.
  unfold matches, kw_match. rewrite existsb_exists. split.
  - intros [k' [Hin Hc]]. apply in_map_iff in Hin. destruct Hin as [k [<- Hin]].
    apply contains_spec in Hc. destruct Hc as [pre [post H]].
    exists k, pre, post. split; assumption.
  - intros [k [pre [post [Hin H]]]]. exists (lower k). split.
    + apply in_map. exact Hin.
    + apply contains_spec. exists pre, post. exact H.
Qed.

(** The models of the library calls, on inputs where Python's answer is
    known. *)
Example strip_tags_samples :
  map strip_tags
    ["a <b>c</b> < d <> <<e>>"; "<>"; "x < y"; "5 > 3"; "<<b>>"; "<a";
     "a<>b<c>d"; "<><b>"]
  = ["a c  >"; "<>"; "x < y"; "5 > 3"; ">"; "<a"; "a<>bd"; "<>"].
Proof. reflexivity. Qed.

Example search_rate_samples :
  map search_rate
    ["30 Year Fixed Rate at 6.87%Rates moved."; "1.2.3%"; "12.%"; ".5%";
     "up 12% to 7.125 %"; "a 3.50% b 4.1%"; "99.9"]
  = [Some "6.87"; Some "2.3"; None; None; None; Some "3.50"; None].
Proof. reflexivity. Qed.

Example strip_lower_samples :
  strip (String (ascii_of_nat 9) " a b " ++ String (ascii_of_nat 10) "") = "a b"
  /\ lower "NC, Raleigh" = "nc, raleigh".
Proof. split; reflexivity. Qed.

Example slice_to_samples :
  slice_to (-1) [1; 2] = [1] /\ slice_to (-1) [1] = []
  /\ slice_to (-5) [1; 2; 3] = [] /\ slice_to 2 [1; 2; 3] = [1; 2]
  /\ slice_to 8 [1; 2; 3] = [1; 2; 3].
Proof. repeat split. Qed.

(** ** Tag stripping *)

Lemma strip_tags_step (c : ascii) (r : string) :
  strip_tags (String c r)
  = match tag_match (String c r) with
    | Some r' => strip_tags r'
    | None => String c (strip_tags r)
    end.
Proof.
  set (step := fun s =>
         match s with
         | EmptyString => EmptyString
         | String c r =>
             match tag_match (String c r) with
             | Some r' => strip_tags r'
             | None => String c (strip_tags r)
             end
         end).
  change (strip_tags (String c r) = step (String c r)).
  generalize (String c r). intros s.
  apply (strip_tags_elim (fun s o => o = step s)); subst step; cbv beta iota.
  - reflexivity.
  - intros c0 r0 r' e _ _. rewrite e. reflexivity.
  - intros c0 r0 e _ _. rewrite e. reflexivity.
Qed.

Lemma after_gt_app (a b : string) :
  after_gt (a ++ String ">" b) <> None.
Proof.
  induction a as [|x a IH]; simpl.
  - discriminate.
  - destruct (Ascii.eqb x ">"); [discriminate | exact IH].
Qed.

Lemma tag_match_has_gt (s r : string) :
  tag_match s = Some r -> after_gt s <> None.
Proof.
  destruct s as [|c s]; simpl; [discriminate|].
  destruct (Ascii.eqb_spec c "<") as [->|_]; [|discriminate].
  simpl. destruct s as [|d s]; simpl; [discriminate|].
  destruct (Ascii.eqb d ">"); [discriminate|].
  intros H. rewrite H. discriminate.
Qed.

(** Stripping tags adds no [>]. *)
Lemma strip_tags_no_gt (s : string) :
  after_gt s = None -> after_gt (strip_tags s) = None.
Proof.
  apply (strip_tags_elim (fun s o => after_gt s = None -> after_gt o = None)).
  - trivial.
  - intros c r r' e _ _ H. apply tag_match_has_gt in e. contradiction.
  - intros c r e IH _. simpl.
    destruct (Ascii.eqb c ">"); [discriminate | exact IH].
Qed.

Lemma strip_tags_tag_free (s : string) : tag_free (strip_tags s).
Proof.
  apply (strip_tags_elim (fun _ o => tag_free o)).
  - intros [|x pre] c mid post H; discriminate.
  - intros c r r' e IH _. exact IH.
  - intros c r e IH _ pre c2 mid post H.
    destruct pre as [|x pre].
    + simpl in H. injection H as -> Hr.
      simpl in e. destruct r as [|d r]; simpl in e.
      * rewrite strip_tags_equation_1 in Hr. discriminate.
      * destruct (Ascii.eqb_spec d ">") as [->|Hd].
        -- rewrite strip_tags_step in Hr. simpl in Hr. congruence.
        -- exfalso.
           assert (Hno : after_gt (String d r) = None).
           { simpl. destruct (Ascii.eqb_spec d ">"); [contradiction | exact e]. }
           apply strip_tags_no_gt in Hno. rewrite Hr in Hno.
           apply (after_gt_app (String c2 mid) post). exact Hno.
    + simpl in H. injection H as _ Hr. exact (IH pre c2 mid post Hr).
Qed.

Lemma tag_free_app_l (a b : string) : tag_free (a ++ b) -> tag_free a.
Proof.
  intros H pre c mid post ->. apply (H pre c mid (post ++ b)%string).
  rewrite str_app_assoc. simpl. now rewrite str_app_assoc.
Qed.

Lemma tag_free_app_r (a b : string) : tag_free (a ++ b) -> tag_free b.
Proof.
  intros H pre c mid post ->. apply (H (a ++ pre)%string c mid post).
  now rewrite str_app_assoc.
Qed.

Lemma clean_desc_length (d : string) :
  (String.length (clean_desc d) <= 220)%nat.
Proof.
  unfold clean_desc.
  pose proof (strip_length (str_take 220 (strip_tags d))).
  pose proof (str_take_length 220 (strip_tags d)). lia.
Qed.

Lemma clean_desc_tag_free (d : string) : tag_free (clean_desc d).
Proof.
  unfold clean_desc, strip.
  pose proof (strip_tags_tag_free d) as H.
  destruct (str_take_prefix 220 (strip_tags d)) as [t Ht].
  rewrite Ht in H. apply tag_free_app_l in H.
  destruct (lstrip_suffix (str_take 220 (strip_tags d))) as [p Hp].
  rewrite Hp in H. apply tag_free_app_r in H.
  destruct (rstrip_prefix (lstrip (str_take 220 (strip_tags d)))) as [u Hu].
  rewrite Hu in H. apply tag_free_app_l in H. exact H.
Qed.

(** ** The feed fetcher *)

Lemma requested_app (l1 l2 : list event) :
  requested (l1 ++ l2) = requested l1 ++ requested l2.
Proof.
  induction l1 as [|[u a t|m] l1 IH]; simpl; [reflexivity | | exact IH].
  now rewrite IH.
Qed.

Lemma requested_fetch_log (w : world) (url : string) (timeout : Z) :
  requested (fetch_log w url timeout) = [url].
Proof.
  unfold fetch_log. destruct (fetch_result w url timeout); reflexivity.
Qed.

(** A run of [fetch_rss] ends normally, with the articles of the feed. *)
Lemma fetch_rss_run (w : world) (url : string) (timeout : Z) (log : list event) :
  fetch_rss w url timeout log
  = (Ok (feed_items w url timeout), log ++ fetch_log w url timeout).
Proof.
  unfold fetch_rss, try_except, fetch_rss_try, bind, request, emit, lift, print.
  unfold feed_items, fetch_log, fetch_result.
  destruct (urlopen w url rss_agent timeout) as [raw|e]; cbn.
  - destruct (xml_fromstring w raw) as [root|e]; cbn.
    + reflexivity.
    + unfold emit, ret. now rewrite <- app_assoc.
  - unfold emit, ret. now rewrite <- app_assoc.
Qed.

Lemma parse_feed_cases (w : world) (root : element) :
  parse_feed w root
  = if is_nil (findall "item" root)
    then map (atom_article w) (firstn 8 (findall (atom "entry") root))
    else map (rss_article w) (firstn 8 (findall "item" root)).
Proof.
  unfold parse_feed. rewrite !slice_to_nonneg by lia.
  change (Z.to_nat 8) with 8%nat.
  destruct (findall "item" root) as [|x l]; reflexivity.
Qed.

Lemma parse_feed_length (w : world) (root : element) :
  (List.length (parse_feed w root) <= 8)%nat.
Proof.
  rewrite parse_feed_cases.
  destruct (is_nil (findall "item" root));
    rewrite length_map, length_firstn; lia.
Qed.

Lemma feed_items_length (w : world) (url : string) (timeout : Z) :
  (List.length (feed_items w url timeout) <= 8)%nat.
Proof.
  unfold feed_items. destruct (fetch_result w url timeout) as [root|e].
  - apply parse_feed_length.
  - simpl. lia.
Qed.

Lemma parse_feed_desc (w : world) (root : element) (a : article) :
  In a (parse_feed w root) -> exists d, desc a = clean_desc d.
Proof.
  rewrite parse_feed_cases.
  destruct (is_nil (findall "item" root)); intros Ha;
    apply in_map_iff in Ha; destruct Ha as [e [<- _]]; eexists; reflexivity.
Qed.

(** ** The digest assembler *)

Lemma fetch_tagged_run (w : world) (f : feed) (log : list event) :
  fetch_tagged w f log = (Ok (tagged_items w f), log ++ feed_log w f).
Proof.
  unfold fetch_tagged, bind, print, emit. rewrite fetch_rss_run.
  unfold ret, tagged_items, feed_log. rewrite <- app_assoc. reflexivity.
Qed.

Lemma plain_loop_run (w : world) (feeds : list feed) (acc : list article)
    (log : list event) :
  for_each feeds (plain_body w) acc log
  = (Ok (acc ++ flat_map (tagged_items w) feeds),
     log ++ flat_map (feed_log w) feeds).
Proof.
  revert acc log; induction feeds as [|f tl IH]; intros acc log; simpl.
  - unfold ret. now rewrite !app_nil_r.
  - unfold bind at 1. unfold plain_body at 1. unfold bind at 1.
    rewrite fetch_tagged_run. unfold ret at 1. rewrite IH.
    now rewrite <- !app_assoc.
Qed.

(** What one construction feed adds to [mortgage_articles]. *)
Lemma construction_loop_run (w : world) (feeds : list feed)
    (acc mort : list article) (log : list event) :
  for_each feeds (construction_body w) (acc, mort) log
  = (Ok (acc ++ flat_map (tagged_items w) feeds,
         mort ++ flat_map
                   (fun f => filter_articles (tagged_items w f) MORTGAGE_KEYWORDS 2)
                   feeds),
     log ++ flat_map (feed_log w) feeds).
Proof.
  revert acc mort log; induction feeds as [|f tl IH]; intros acc mort log; simpl.
  - unfold ret. now rewrite !app_nil_r.
  - unfold bind at 1. unfold construction_body at 1. unfold bind at 1.
    rewrite fetch_tagged_run. unfold ret at 1. rewrite IH.
    now rewrite <- !app_assoc.
Qed.

(** The digest of a world, without the effects. *)
Lemma gather_news_run (w : world) (log : list event) :
  gather_news w log
  = (Ok {| raleigh :=
             filter_articles (flat_map (tagged_items w) (group "raleigh_news"))
               RALEIGH_KEYWORDS 5;
           construction :=
             filter_articles (flat_map (tagged_items w) (group "construction_news"))
               (MATERIAL_KEYWORDS ++ ["home"; "build"; "permit"; "housing"]) 4;
           materials :=
             filter_articles (flat_map (tagged_items w) (group "materials_news"))
               MATERIAL_KEYWORDS 4;
           mortgage_news :=
             slice_to 3
               (flat_map
                  (fun f => filter_articles (tagged_items w f) MORTGAGE_KEYWORDS 2)
                  (group "construction_news")) |},
     log ++ [Printed MsgFetchingFeeds]
         ++ flat_map (feed_log w) (group "raleigh_news")
         ++ flat_map (feed_log w) (group "construction_news")
         ++ flat_map (feed_log w) (group "materials_news")).
Proof.
  unfold gather_news.
  unfold bind at 1. unfold print, emit.
  unfold bind at 1. change (feeds_lookup RSS_FEEDS "raleigh_news") with (ret (group "raleigh_news")).
  unfold ret at 1.
  unfold bind at 1. rewrite plain_loop_run.
  unfold bind at 1. change (feeds_lookup RSS_FEEDS "construction_news") with (ret (group "construction_news")).
  unfold ret at 1.
  unfold bind at 1. rewrite construction_loop_run.
  unfold bind at 1. change (feeds_lookup RSS_FEEDS "materials_news") with (ret (group "materials_news")).
  unfold ret at 1.
  unfold bind at 1. rewrite plain_loop_run.
  unfold ret. cbn [app]. rewrite <- !app_assoc. reflexivity.
Qed.

Lemma requested_feed_logs (w : world) (feeds : list feed) :
  requested (flat_map (feed_log w) feeds) = map url feeds.
Proof.
  induction feeds as [|f tl IH]; [reflexivity|].
  cbn [flat_map map]. rewrite requested_app, IH.
  unfold feed_log. cbn [requested]. now rewrite requested_fetch_log.
Qed.

(** C3: whatever the request or the parser raises, [fetch_rss] ends
    normally with an empty list (and a printed warning); it never raises.
    So [gather_news] ends normally in every world, after a request to every
    configured location, in the order of the configuration. *)
Theorem fetch_rss_fail_soft (w : world) :
  (forall url timeout log,
      fetch_rss w url timeout log
      = match fetch_result w url timeout with
        | Ok root =>
            (Ok (parse_feed w root), log ++ [Request url rss_agent timeout])
        | Raise e =>
            (Ok [], log ++ [Request url rss_agent timeout;
                            Printed (MsgFetchFailed url e)])
        end)
  /\ (forall log, exists d log',
         gather_news w log = (Ok d, log')
         /\ requested log' = requested log ++ all_feed_urls).
Proof.
  split.
  - intros url timeout log. rewrite fetch_rss_run.
    unfold feed_items, fetch_log.
    destruct (fetch_result w url timeout); reflexivity.
  - intros log. rewrite gather_news_run. eexists. eexists.
    split; [reflexivity|].
    rewrite !requested_app, !requested_feed_logs. reflexivity.
Qed.

(** The first end-to-end scenario: of three local sources one times out;
    the section holds the articles of the other two and the run goes on to
    the remaining groups. *)
Example one_source_times_out :
  let w := serving
             [("https://www.wral.com/rss/1148/", TimeoutError)]
             [("https://www.newsobserver.com/news/business/real-estate-news/?outputType=atom",
               triangle_atom_doc);
              ("https://www.bizjournals.com/triangle/rssfeed/breaking_news/",
               bridge_doc)]
             [] in
  exists d log,
    gather_news w [] = (Ok d, log)
    /\ map title (raleigh d) = ["Triangle home sales"; "New bridge opens"]
    /\ map source (raleigh d)
       = [Some "News & Observer – Real Estate"; Some "Triangle Business Journal"]
    /\ requested log = all_feed_urls.
Proof.
  eexists. eexists. split; [vm_compute; reflexivity|].
  repeat split.
Qed.

(** C4 (as amended): every summary that [fetch_rss] returns has at most 220
    characters and holds no complete tag, that is no [<] followed by one or
    more characters other than [>] and then a [>]. *)
Theorem fetch_rss_summary_clean
    (w : world) (url : string) (timeout : Z) (log log' : list event)
    (items : list article) (a : article) :
  fetch_rss w url timeout log = (Ok items, log') ->
  In a items ->
  (String.length (desc a) <= 220)%nat /\ tag_free (desc a).
Proof.
  rewrite fetch_rss_run. intros [= <- _]. unfold feed_items.
  destruct (fetch_result w url timeout) as [root|e]; [|intros []].
  intros Ha. apply parse_feed_desc in Ha. destruct Ha as [d ->].
  split; [apply clean_desc_length | apply clean_desc_tag_free].
Qed.

Lemma fetch_rss_summary_clean_witness :
  let w := serving [] [("https://nahbnow.com/feed/", bold_doc)] [] in
  let a := {| title := "Lumber <b>up</b>"; link := "";
              desc := "Prices rose again."; date := ""; source := None |} in
  fetch_rss w "https://nahbnow.com/feed/" 10 []
  = (Ok [a], [Request "https://nahbnow.com/feed/" rss_agent 10])
  /\ In a [a]
  /\ (String.length (desc a) <= 220)%nat
  /\ tag_free (desc a).
Proof.
  intros w a.
  assert (Hrun : fetch_rss w "https://nahbnow.com/feed/" 10 []
                 = (Ok [a], [Request "https://nahbnow.com/feed/" rss_agent 10]))
    by (vm_compute; reflexivity).
  assert (Hin : In a [a]) by (left; reflexivity).
  split; [exact Hrun|]. split; [exact Hin|].
  exact (fetch_rss_summary_clean w _ _ _ _ _ a Hrun Hin).
Defined.

(** In any world the summary of [comparison_doc] is its description. *)
Lemma comparison_summary (w : world) :
  map desc (parse_feed w comparison_doc) = ["Permits: 5 > 3 this week"].
Proof. vm_compute. reflexivity. Qed.

(** C4 (as stated) fails: a [>] that closes no tag stays in the summary,
    whatever the entity table of the world. *)
Lemma summary_keeps_delimiter :
  ~ (exists w : world,
        forall a, In a (parse_feed w comparison_doc) ->
                  has_delimiter (desc a) = false).
Proof.
  intros [w H].
  pose proof (comparison_summary w) as Hd.
  destruct (parse_feed w comparison_doc) as [|a [|b l]]; try discriminate.
  injection Hd as Hd.
  specialize (H a (or_introl eq_refl)). rewrite Hd in H.
  vm_compute in H. discriminate.
Qed.

(** C5: the Atom extraction runs exactly when the document has no [item];
    the result comes from one of the two formats, never from both; and a
    document without [item] but with Atom entries gives articles. *)
Theorem parse_feed_one_format (w : world) (root : element) :
  parse_feed w root
  = (if is_nil (findall "item" root)
     then map (atom_article w) (firstn 8 (findall (atom "entry") root))
     else map (rss_article w) (firstn 8 (findall "item" root)))
  /\ (findall "item" root = [] ->
      findall (atom "entry") root <> [] ->
      parse_feed w root <> []).
Proof.
  split; [apply parse_feed_cases|].
  intros Hitems Hentries. rewrite parse_feed_cases, Hitems. simpl.
  destruct (findall (atom "entry") root); [contradiction | discriminate].
Qed.

Lemma parse_feed_one_format_witness :
  findall "item" triangle_atom_doc = []
  /\ findall (atom "entry") triangle_atom_doc <> []
  /\ parse_feed offline triangle_atom_doc <> [].
Proof.
  assert (H1 : findall "item" triangle_atom_doc = []) by reflexivity.
  assert (H2 : findall (atom "entry") triangle_atom_doc <> [])
    by (vm_compute; discriminate).
  split; [exact H1|]. split; [exact H2|].
  exact (proj2 (parse_feed_one_format offline triangle_atom_doc) H1 H2).
Defined.

(** C9: a fetch returns at most 8 articles; the cut to 8 is made on the
    elements found in the document, before any field is extracted. *)
Theorem fetch_rss_at_most_eight (w : world) :
  (forall url timeout log, exists items log',
      fetch_rss w url timeout log = (Ok items, log')
      /\ (List.length items <= 8)%nat)
  /\ (forall root,
         (List.length (parse_feed w root) <= 8)%nat
         /\ (parse_feed w root = map (rss_article w) (firstn 8 (findall "item" root))
             \/ parse_feed w root
                = map (atom_article w) (firstn 8 (findall (atom "entry") root)))).
Proof.
  split.
  - intros url timeout log. rewrite fetch_rss_run. eexists. eexists.
    split; [reflexivity | apply feed_items_length].
  - intros root. split; [apply parse_feed_length|].
    rewrite parse_feed_cases. destruct (is_nil (findall "item" root)); auto.
Qed.

(** What holds of the mortgage bucket: each construction feed adds at most
    2 articles, its own, and the bucket is the first 3 of what was
    added. *)
Lemma mortgage_bucket_bounds (w : world) (log : list event) :
  exists d log',
    gather_news w log = (Ok d, log')
    /\ mortgage_news d
       = firstn 3 (flat_map
                     (fun f => filter_articles (tagged_items w f) MORTGAGE_KEYWORDS 2)
                     (group "construction_news"))
    /\ (List.length (mortgage_news d) <= 3)%nat
    /\ Forall (fun f =>
                 (List.length (filter_articles (tagged_items w f) MORTGAGE_KEYWORDS 2)
                  <= 2)%nat)
         (group "construction_news").
Proof.
  rewrite gather_news_run. eexists. eexists. split; [reflexivity|].
  cbn [mortgage_news]. rewrite slice_to_nonneg by lia.
  change (Z.to_nat 3) with 3%nat.
  split; [reflexivity|]. split; [rewrite length_firstn; lia|].
  apply Forall_forall. intros f _.
  rewrite filter_articles_partition.
  match goal with
  | |- (List.length (slice_to 2 ?l) <= 2)%nat =>
      pose proof (slice_to_length 2 l ltac:(lia)); lia
  end.
Qed.

(** C6 fails on the code: when a construction feed has fewer than two
    articles about mortgages, [filter_articles] fills up with its other
    articles, and they enter the mortgage bucket. *)
Theorem mortgage_bucket_takes_unrelated :
  let w := serving []
             [("https://www.constructiondive.com/feeds/news/", bridge_doc)] [] in
  let a := {| title := "New bridge opens"; link := "";
              desc := "Traffic is flowing again."; date := "";
              source := Some "Construction Dive" |} in
  (exists d log, gather_news w [] = (Ok d, log) /\ mortgage_news d = [a])
  /\ matches MORTGAGE_KEYWORDS a = false.
Proof.
  intros w a. split.
  - eexists. eexists. split; [vm_compute; reflexivity | reflexivity].
  - vm_compute. reflexivity.
Qed.

(** ** The rate resolver *)

Lemma percent_nonempty (s : string) : (s ++ "%")%string <> EmptyString.
Proof. destruct s; discriminate. Qed.

(** One step of a run: a lifted outcome followed by the rest. *)
Lemma bind_lift {A B : Type} (o : outcome A) (k : A -> io B) (log : list event) :
  bind (lift o) k log
  = match o with
    | Ok a => k a log
    | Raise e => (Raise e, log)
    end.
Proof. unfold bind, lift. destruct o; reflexivity. Qed.

Lemma bind_request {B : Type} (w : world) (u agent : string) (timeout : Z)
    (k : string -> io B) (log : list event) :
  bind (request w u agent timeout) k log
  = match urlopen w u agent timeout with
    | Ok raw => k raw (log ++ [Request u agent timeout])
    | Raise e => (Raise e, log ++ [Request u agent timeout])
    end.
Proof.
  unfold request, bind, emit, lift.
  destruct (urlopen w u agent timeout); reflexivity.
Qed.

(** The record of the first tier, from the parsed document. *)
Lemma rate_primary_run (w : world) (log : list event) :
  rate_primary w log
  = (match urlopen w pmms_url "Mozilla/5.0" 8 with
     | Ok raw =>
         match json_loads w raw with
         | Ok data =>
             match get_item data "pmms30" (PList [PDict []]) with
             | Ok series =>
                 match last_item series with
                 | Ok latest =>
                     match get_item latest "pmms" (PStr "N/A"),
                           get_item latest "weeklyendingdate" (PStr "") with
                     | Ok rate, Ok week =>
                         Ok [ ("rate", PStr (py_str w rate ++ "%"));
                              ("week", week);
                              ("source", PStr "Freddie Mac Primary Mortgage Market Survey");
                              ("link", PStr "https://www.freddiemac.com/pmms");
                              ("change", PStr "") ]
                     | Raise e, _ => Raise e
                     | _, Raise e => Raise e
                     end
                 | Raise e => Raise e
                 end
             | Raise e => Raise e
             end
         | Raise e => Raise e
         end
     | Raise e => Raise e
     end,
     log ++ [Request pmms_url "Mozilla/5.0" 8]).
Proof.
  unfold rate_primary. rewrite bind_request.
  destruct (urlopen w pmms_url "Mozilla/5.0" 8) as [raw|e]; [|reflexivity].
  rewrite bind_lift. destruct (json_loads w raw) as [data|e]; [|reflexivity].
  unfold py_get, py_last. rewrite bind_lift.
  destruct (get_item data "pmms30" (PList [PDict []])) as [series|e]; [|reflexivity].
  rewrite bind_lift. destruct (last_item series) as [latest|e]; [|reflexivity].
  rewrite bind_lift.
  destruct (get_item latest "pmms" (PStr "N/A")) as [rate|e].
  - rewrite bind_lift.
    destruct (get_item latest "weeklyendingdate" (PStr "")); reflexivity.
  - destruct (get_item latest "weeklyendingdate" (PStr "")); reflexivity.
Qed.

(** The first tier makes one request, whatever comes of it. *)
Lemma rate_primary_log (w : world) (log : list event) :
  snd (rate_primary w log) = log ++ [Request pmms_url "Mozilla/5.0" 8].
Proof. rewrite rate_primary_run. reflexivity. Qed.

(** A record of the first tier has the five keys and a rate that ends in
    a percent sign. *)
Lemma rate_primary_shape (w : world) (log l : list event) (r : dict) :
  rate_primary w log = (Ok r, l) ->
  map fst r = record_keys
  /\ exists s, dict_lookup r "rate" = Some (PStr (s ++ "%")).
Proof.
  rewrite rate_primary_run.
  destruct (urlopen w pmms_url "Mozilla/5.0" 8) as [raw|e]; [|discriminate].
  destruct (json_loads w raw) as [data|e]; [|discriminate].
  destruct (get_item data "pmms30" (PList [PDict []])) as [series|e]; [|discriminate].
  destruct (last_item series) as [latest|e]; [|discriminate].
  destruct (get_item latest "pmms" (PStr "N/A")) as [rate|e];
    destruct (get_item latest "weeklyendingdate" (PStr "")) as [week|e'];
    try discriminate.
  intros [= <- _]. split; [reflexivity | eexists; reflexivity].
Qed.

(** The second tier never raises; it returns a record when the first
    article of the feed shows a rate. *)
Lemma rate_secondary_run (w : world) (log : list event) :
  rate_secondary w log
  = (Ok match feed_items w mnd_url 10 with
        | first :: _ =>
            match search_rate (title first ++ desc first) with
            | Some g =>
                Some [ ("rate", PStr (g ++ "%"));
                       ("week", PStr (strftime_now w "%B %d, %Y"));
                       ("source", PStr "Mortgage News Daily");
                       ("link", PStr "https://www.mortgagenewsdaily.com/mortgage-rates/30-year-fixed");
                       ("change", PStr (title first)) ]
            | None => None
            end
        | [] => None
        end,
     log ++ fetch_log w mnd_url 10).
Proof.
  unfold rate_secondary. unfold bind. rewrite fetch_rss_run.
  destruct (feed_items w mnd_url 10) as [|first tl]; [reflexivity|].
  destruct (search_rate (title first ++ desc first)); reflexivity.
Qed.

Lemma rate_secondary_shape (w : world) (log l : list event) (r : dict) :
  rate_secondary w log = (Ok (Some r), l) ->
  map fst r = record_keys
  /\ exists s, dict_lookup r "rate" = Some (PStr (s ++ "%")).
Proof.
  rewrite rate_secondary_run.
  destruct (feed_items w mnd_url 10) as [|first tl]; [discriminate|].
  destruct (search_rate (title first ++ desc first)); [|discriminate].
  intros [= <- _]. split; [reflexivity | eexists; reflexivity].
Qed.

(** The tiers in order: the first that gives a record wins, and the last
    one always does. *)
Lemma fetch_mortgage_rate_run (w : world) (log : list event) :
  fetch_mortgage_rate w log
  = match rate_primary w log with
    | (Ok r, l1) => (Ok r, l1)
    | (Raise e, l1) =>
        match rate_secondary w (l1 ++ [Printed (MsgRateFailed e)]) with
        | (Ok (Some r), l2) => (Ok r, l2)
        | (Ok None, l2) => (Ok (rate_fallback w), l2)
        | (Raise _, l2) => (Ok (rate_fallback w), l2)
        end
    end.
Proof.
  unfold fetch_mortgage_rate.
  unfold bind at 1. unfold try_except at 1. unfold bind at 1.
  destruct (rate_primary w log) as [[r|e] l1].
  - reflexivity.
  - unfold bind at 1. unfold print, emit. unfold ret at 1.
    unfold bind at 1. unfold try_except at 1.
    destruct (rate_secondary w (l1 ++ [Printed (MsgRateFailed e)]))
      as [[[r|]|e2] l2]; reflexivity.
Qed.

(** The record of a run is the record of one of the three tiers. *)
Lemma rate_record_cases (w : world) (log : list event) :
  exists r log',
    fetch_mortgage_rate w log = (Ok r, log')
    /\ ((exists s week,
            r = [ ("rate", PStr (s ++ "%"));
                  ("week", week);
                  ("source", PStr "Freddie Mac Primary Mortgage Market Survey");
                  ("link", PStr "https://www.freddiemac.com/pmms");
                  ("change", PStr "") ])
        \/ (exists g note,
               r = [ ("rate", PStr (g ++ "%"));
                     ("week", PStr (strftime_now w "%B %d, %Y"));
                     ("source", PStr "Mortgage News Daily");
                     ("link", PStr "https://www.mortgagenewsdaily.com/mortgage-rates/30-year-fixed");
                     ("change", PStr note) ])
        \/ r = rate_fallback w).
Proof.
  assert (Hsecond : forall l,
             exists r log',
               match rate_secondary w l with
               | (Ok (Some r), l2) => (Ok r, l2)
               | (Ok None, l2) => (Ok (rate_fallback w), l2)
               | (Raise _, l2) => (Ok (rate_fallback w), l2)
               end = (Ok r, log')
               /\ ((exists s week,
                       r = [ ("rate", PStr (s ++ "%"));
                             ("week", week);
                             ("source", PStr "Freddie Mac Primary Mortgage Market Survey");
                             ("link", PStr "https://www.freddiemac.com/pmms");
                             ("change", PStr "") ])
                   \/ (exists g note,
                          r = [ ("rate", PStr (g ++ "%"));
                                ("week", PStr (strftime_now w "%B %d, %Y"));
                                ("source", PStr "Mortgage News Daily");
                                ("link", PStr "https://www.mortgagenewsdaily.com/mortgage-rates/30-year-fixed");
                                ("change", PStr note) ])
                   \/ r = rate_fallback w)).
  { intros l. rewrite rate_secondary_run.
    destruct (feed_items w mnd_url 10) as [|first tl];
      [|destruct (search_rate (title first ++ desc first)) as [g|]];
      eexists; eexists; (split; [reflexivity|]).
    - right. right. reflexivity.
    - right. left. eexists. eexists. reflexivity.
    - right. right. reflexivity. }
  rewrite fetch_mortgage_rate_run, rate_primary_run.
  destruct (urlopen w pmms_url "Mozilla/5.0" 8) as [raw|e]; [|apply Hsecond].
  destruct (json_loads w raw) as [data|e]; [|apply Hsecond].
  destruct (get_item data "pmms30" (PList [PDict []])) as [series|e];
    [|apply Hsecond].
  destruct (last_item series) as [latest|e]; [|apply Hsecond].
  destruct (get_item latest "pmms" (PStr "N/A")) as [rate|e];
    destruct (get_item latest "weeklyendingdate" (PStr "")) as [week|e'];
    try apply Hsecond.
  eexists. eexists. split; [reflexivity|].
  left. eexists. eexists. reflexivity.
Qed.

(** C2 (as amended): in every world [fetch_mortgage_rate] ends normally
    with one record; the record has the five keys, and its rate, its
    source and its link are strings that are not empty.  The week and the
    note may be empty.  When the first tier raises and the second finds no
    rate, the record is the placeholder, whose period label is the current
    date. *)
Theorem fetch_mortgage_rate_total (w : world) (log : list event) :
  exists r log',
    fetch_mortgage_rate w log = (Ok r, log')
    /\ map fst r = record_keys
    /\ (exists s, dict_lookup r "rate" = Some (PStr s) /\ s <> EmptyString)
    /\ (forall e l1 l2,
           rate_primary w log = (Raise e, l1) ->
           rate_secondary w (l1 ++ [Printed (MsgRateFailed e)]) = (Ok None, l2) ->
           r = rate_fallback w
           /\ dict_lookup r "week" = Some (PStr (strftime_now w "%B %d, %Y")))
    /\ (forall k, In k ["rate"; "source"; "link"] ->
                  exists s, dict_lookup r k = Some (PStr s) /\ s <> EmptyString).
Proof.
  destruct (rate_record_cases w log) as [r [log' [Hrun Hshape]]].
  exists r, log'. split; [exact Hrun|].
  assert (Hfb : forall e l1 l2,
             rate_primary w log = (Raise e, l1) ->
             rate_secondary w (l1 ++ [Printed (MsgRateFailed e)]) = (Ok None, l2) ->
             r = rate_fallback w
             /\ dict_lookup r "week" = Some (PStr (strftime_now w "%B %d, %Y"))).
  { intros e l1 l2 E1 E2. rewrite fetch_mortgage_rate_run, E1, E2 in Hrun.
    injection Hrun as <- _. split; reflexivity. }
  destruct Hshape as [[s [week ->]] | [[g [note ->]] | ->]].
  - split; [reflexivity|]. split.
    + eexists. split; [reflexivity | apply percent_nonempty].
    + split; [exact Hfb|].
      intros k [<- | [<- | [<- | []]]]; eexists;
        (split; [reflexivity | try apply percent_nonempty; try discriminate]).
  - split; [reflexivity|]. split.
    + eexists. split; [reflexivity | apply percent_nonempty].
    + split; [exact Hfb|].
      intros k [<- | [<- | [<- | []]]]; eexists;
        (split; [reflexivity | try apply percent_nonempty; try discriminate]).
  - split; [reflexivity|]. split.
    + eexists. split; [reflexivity | discriminate].
    + split; [exact Hfb|].
      intros k [<- | [<- | [<- | []]]]; eexists;
        (split; [reflexivity | discriminate]).
Qed.

(** The third end-to-end scenario: both rate sources fail. *)
Lemma fetch_mortgage_rate_total_witness :
  exists r log',
    fetch_mortgage_rate offline [] = (Ok r, log')
    /\ r = rate_fallback offline
    /\ dict_lookup r "source" = Some (PStr "Bankrate")
    /\ dict_lookup r "week" = Some (PStr "May 09, 2024").
Proof.
  destruct (fetch_mortgage_rate_total offline [])
    as [r [log' [Hrun [_ [_ [Hfb _]]]]]].
  exists r, log'. split; [exact Hrun|].
  destruct (Hfb URLError
              [Request pmms_url "Mozilla/5.0" 8]
              [Request pmms_url "Mozilla/5.0" 8;
               Printed (MsgRateFailed URLError);
               Request mnd_url rss_agent 10;
               Printed (MsgFetchFailed mnd_url URLError)]
              eq_refl eq_refl) as [Hr Hw].
  split; [exact Hr|]. split; [rewrite Hr; reflexivity | exact Hw].
Defined.

(** C2 (as stated) fails: in the second end-to-end scenario itself the
    record of the first tier has an empty note, and a latest entry with an
    empty rate and a null week gives the rate ["%"] and the week [None];
    in both records a field is not populated. *)
Lemma rate_record_unpopulated_fields :
  fst (fetch_mortgage_rate (serving [] [] [(pmms_url, pmms_sample)]) [])
  = Ok [ ("rate", PStr "6.72%");
         ("week", PStr "2024-05-09");
         ("source", PStr "Freddie Mac Primary Mortgage Market Survey");
         ("link", PStr "https://www.freddiemac.com/pmms");
         ("change", PStr "") ]
  /\ record_populated
       [ ("rate", PStr "6.72%");
         ("week", PStr "2024-05-09");
         ("source", PStr "Freddie Mac Primary Mortgage Market Survey");
         ("link", PStr "https://www.freddiemac.com/pmms");
         ("change", PStr "") ] = false
  /\ fst (fetch_mortgage_rate (serving [] [] [(pmms_url, blank_entry_sample)]) [])
     = Ok [ ("rate", PStr "%");
            ("week", PNone);
            ("source", PStr "Freddie Mac Primary Mortgage Market Survey");
            ("link", PStr "https://www.freddiemac.com/pmms");
            ("change", PStr "") ]
  /\ field_populated
       [ ("rate", PStr "%");
         ("week", PNone);
         ("source", PStr "Freddie Mac Primary Mortgage Market Survey");
         ("link", PStr "https://www.freddiemac.com/pmms");
         ("change", PStr "") ] "week" = false.
Proof. repeat split. Qed.

(** The second tier at work: the headline gives the rate. *)
Example rate_from_headline :
  let w := serving [(pmms_url, TimeoutError)] [(mnd_url, rates_doc)] [] in
  fst (fetch_mortgage_rate w [])
  = Ok [ ("rate", PStr "6.87%");
         ("week", PStr "May 09, 2024");
         ("source", PStr "Mortgage News Daily");
         ("link", PStr "https://www.mortgagenewsdaily.com/mortgage-rates/30-year-fixed");
         ("change", PStr "30 Year Fixed Rate at 6.87%") ].
Proof. vm_compute. reflexivity. Qed.

Lemma last_item_snoc (hist : list pyval) (x : pyval) :
  last_item (PList (hist ++ [x])) = Ok x.
Proof.
  unfold last_item. rewrite last_last.
  destruct hist; reflexivity.
Qed.

(** C8: when the first source returns a document whose list [pmms30] ends
    with the entry [{"pmms": "6.72", "weeklyendingdate": "2024-05-09"}]
    (in the scenario it is the only entry), the record has the rate
    ["6.72%"] and the week ["2024-05-09"], and it is the record of the
    first tier. *)
Theorem pmms_latest_entry
    (w : world) (log : list event) (raw : string) (hist : list pyval) :
  urlopen w pmms_url "Mozilla/5.0" 8 = Ok raw ->
  json_loads w raw
  = Ok (PDict [("pmms30",
                PList (hist ++ [PDict [("pmms", PStr "6.72");
                                       ("weeklyendingdate", PStr "2024-05-09")]]))]) ->
  fetch_mortgage_rate w log
  = (Ok [ ("rate", PStr "6.72%");
          ("week", PStr "2024-05-09");
          ("source", PStr "Freddie Mac Primary Mortgage Market Survey");
          ("link", PStr "https://www.freddiemac.com/pmms");
          ("change", PStr "") ],
     log ++ [Request pmms_url "Mozilla/5.0" 8]).
Proof.
  intros Hraw Hdoc.
  rewrite fetch_mortgage_rate_run, rate_primary_run, Hraw, Hdoc.
  cbn [get_item dict_get dict_lookup String.eqb Ascii.eqb Bool.eqb].
  rewrite last_item_snoc. reflexivity.
Qed.

Lemma pmms_latest_entry_witness :
  let w := serving [] [] [(pmms_url, pmms_sample)] in
  urlopen w pmms_url "Mozilla/5.0" 8 = Ok pmms_url
  /\ json_loads w pmms_url = Ok pmms_sample
  /\ fetch_mortgage_rate w []
     = (Ok [ ("rate", PStr "6.72%");
             ("week", PStr "2024-05-09");
             ("source", PStr "Freddie Mac Primary Mortgage Market Survey");
             ("link", PStr "https://www.freddiemac.com/pmms");
             ("change", PStr "") ],
        [Request pmms_url "Mozilla/5.0" 8]).
Proof.
  intros w.
  split; [reflexivity|]. split; [reflexivity|].
  exact (pmms_latest_entry w [] pmms_url [] eq_refl eq_refl).
Defined.

(** C10: when the first source returns a JSON object without the key
    ["pmms30"], the default [[{}]] stands in for the list, and the record
    of the first tier is returned with the rate ["N/A%"] and an empty
    week; the second source is not requested.  In general the second
    source is requested exactly when the first tier raises, as it does on
    an empty list [pmms30]. *)
Theorem pmms_key_absent (w : world) (log : list event) :
  (forall raw d,
      urlopen w pmms_url "Mozilla/5.0" 8 = Ok raw ->
      json_loads w raw = Ok (PDict d) ->
      dict_lookup d "pmms30" = None ->
      fetch_mortgage_rate w log
      = (Ok [ ("rate", PStr "N/A%");
              ("week", PStr "");
              ("source", PStr "Freddie Mac Primary Mortgage Market Survey");
              ("link", PStr "https://www.freddiemac.com/pmms");
              ("change", PStr "") ],
         log ++ [Request pmms_url "Mozilla/5.0" 8]))
  /\ requested (snd (fetch_mortgage_rate w log))
     = requested log ++
       match fst (rate_primary w log) with
       | Ok _ => [pmms_url]
       | Raise _ => [pmms_url; mnd_url]
       end
  /\ (forall raw d,
         urlopen w pmms_url "Mozilla/5.0" 8 = Ok raw ->
         json_loads w raw = Ok (PDict d) ->
         dict_lookup d "pmms30" = Some (PList []) ->
         fst (rate_primary w log) = Raise IndexError).
Proof.
  split; [|split].
  - intros raw d Hraw Hdoc Hkey.
    rewrite fetch_mortgage_rate_run, rate_primary_run, Hraw, Hdoc.
    unfold get_item at 1. unfold dict_get. rewrite Hkey. reflexivity.
  - rewrite fetch_mortgage_rate_run.
    pose proof (rate_primary_log w log) as Hlog.
    destruct (rate_primary w log) as [[r|e] l1]; cbn [fst snd] in *; subst l1.
    + rewrite requested_app. reflexivity.
    + rewrite rate_secondary_run.
      destruct (feed_items w mnd_url 10) as [|first tl];
        [|destruct (search_rate (title first ++ desc first))];
        cbn [snd]; rewrite !requested_app, requested_fetch_log;
        cbn [requested app]; rewrite <- !app_assoc; reflexivity.
  - intros raw d Hraw Hdoc Hkey.
    rewrite rate_primary_run, Hraw, Hdoc.
    unfold get_item at 1. unfold dict_get. rewrite Hkey. reflexivity.
Qed.

Lemma pmms_key_absent_witness :
  let w := serving [] [] [(pmms_url, PDict [("updated", PStr "2024-05-09")])] in
  fetch_mortgage_rate w []
  = (Ok [ ("rate", PStr "N/A%");
          ("week", PStr "");
          ("source", PStr "Freddie Mac Primary Mortgage Market Survey");
          ("link", PStr "https://www.freddiemac.com/pmms");
          ("change", PStr "") ],
     [Request pmms_url "Mozilla/5.0" 8]).
Proof.
  intros w.
  exact (proj1 (pmms_key_absent w [])
           pmms_url [("updated", PStr "2024-05-09")] eq_refl eq_refl eq_refl).
Defined.

(** * Further properties *)

(** ** The relevance filter, continued *)

Lemma slice_to_firstn {A : Type} (n : Z) (l : list A) :
  exists k, slice_to n l = firstn k l.
Proof.
  unfold slice_to. destruct (n <? 0); eexists; reflexivity.
Qed.

Lemma filter_all {A : Type} (f : A -> bool) (l : list A) :
  (forall x, In x l -> f x = true) -> filter f l = l.
Proof.
  induction l as [|x l IH]; intros H; simpl; [reflexivity|].
  rewrite (H x (or_introl eq_refl)), IH; [reflexivity|].
  intros y Hy. apply H. now right.
Qed.

Lemma filter_none {A : Type} (f : A -> bool) (l : list A) :
  (forall x, In x l -> f x = false) -> filter f l = [].
Proof.
  induction l as [|x l IH]; intros H; simpl; [reflexivity|].
  rewrite (H x (or_introl eq_refl)). apply IH.
  intros y Hy. apply H. now right.
Qed.

Lemma in_firstn {A : Type} (k : nat) (l : list A) (x : A) :
  In x (firstn k l) -> In x l.
Proof.
  intros H. rewrite <- (firstn_skipn k l). apply in_or_app. now left.
Qed.

Section FilterMore.

Variable keywords : list string.

(** The matching articles among the first [k] of the partition. *)
Lemma partition_prefix_hits (articles : list article) (k : nat) :
  filter (matches keywords)
    (firstn k (filter (matches keywords) articles
               ++ filter (fun a => negb (matches keywords a)) articles))
  = firstn k (filter (matches keywords) articles).
Proof.
  rewrite firstn_app, filter_app.
  set (m := filter (matches keywords) articles).
  set (r := filter (fun a => negb (matches keywords a)) articles).
  rewrite (filter_all (matches keywords) (firstn k m)).
  - rewrite (filter_none (matches keywords) (firstn (k - List.length m) r)).
    + apply app_nil_r.
    + intros x Hx. apply in_firstn, filter_In in Hx.
      destruct Hx as [_ Hx]. now apply negb_true_iff.
  - intros x Hx. apply in_firstn, filter_In in Hx. tauto.
Qed.

Lemma partition_prefix_misses (articles : list article) (k : nat) :
  filter (fun a => negb (matches keywords a))
    (firstn k (filter (matches keywords) articles
               ++ filter (fun a => negb (matches keywords a)) articles))
  = firstn (k - List.length (filter (matches keywords) articles))
      (filter (fun a => negb (matches keywords a)) articles).
Proof.
  rewrite firstn_app, filter_app.
  set (m := filter (matches keywords) articles).
  set (r := filter (fun a => negb (matches keywords a)) articles).
  rewrite (filter_none (fun a => negb (matches keywords a)) (firstn k m)).
  - apply (filter_all (fun a => negb (matches keywords a))).
    intros x Hx. apply in_firstn, filter_In in Hx. tauto.
  - intros x Hx. apply in_firstn, filter_In in Hx.
    destruct Hx as [_ Hx]. now rewrite Hx.
Qed.

End FilterMore.

(** X1: whatever the cap, negative or not, the output of the filter is
    drawn from the input: the input is a rearrangement of the output
    followed by the articles that were cut.  So no article is invented or
    repeated, and the output is never longer than the input. *)
Theorem filter_articles_from_input
    (articles : list article) (keywords : list string) (max_items : Z) :
  exists cut,
    Permutation articles (filter_articles articles keywords max_items ++ cut)
    /\ (forall a, In a (filter_articles articles keywords max_items) ->
                  In a articles)
    /\ (List.length (filter_articles articles keywords max_items)
        <= List.length articles)%nat.
Proof.
  rewrite filter_articles_partition.
  pose proof (partition_permutation keywords articles) as Hperm.
  set (p := filter (matches keywords) articles
            ++ filter (fun a => negb (matches keywords a)) articles) in *.
  destruct (slice_to_firstn max_items p) as [k ->].
  exists (skipn k p). rewrite firstn_skipn. split; [exact Hperm|]. split.
  - intros a Ha. apply in_firstn in Ha.
    apply Permutation_in with (l := p); [now apply Permutation_sym | exact Ha].
  - rewrite length_firstn, (Permutation_length Hperm). lia.
Qed.

(** X2: for a cap that is not negative, the matching articles of the
    output are the first [max_items] matching articles of the input: a
    matching article is cut only when the output is full of matching
    articles. *)
Theorem filter_articles_hits_first
    (articles : list article) (keywords : list string) (max_items : Z) :
  0 <= max_items ->
  filter (matches keywords) (filter_articles articles keywords max_items)
  = firstn (Z.to_nat max_items) (filter (matches keywords) articles).
Proof.
  intros Hn. rewrite filter_articles_partition, slice_to_nonneg by exact Hn.
  apply partition_prefix_hits.
Qed.

Lemma filter_articles_hits_first_witness :
  0 <= 1
  /\ filter (matches MATERIAL_KEYWORDS)
       (filter_articles [bridge_story; lumber_story; lumber_story]
          MATERIAL_KEYWORDS 1)
     = [lumber_story].
Proof.
  split; [lia|].
  exact (filter_articles_hits_first
           [bridge_story; lumber_story; lumber_story] MATERIAL_KEYWORDS 1
           ltac:(lia)).
Defined.

(** X3: the length of the output for every cap: the smaller of the cap
    and the input length when the cap is not negative; for a negative cap
    [-k] the input length less [k], or zero. *)
Theorem filter_articles_length
    (articles : list article) (keywords : list string) (max_items : Z) :
  Z.of_nat (List.length (filter_articles articles keywords max_items))
  = if max_items <? 0
    then Z.max 0 (Z.of_nat (List.length articles) + max_items)
    else Z.min max_items (Z.of_nat (List.length articles)).
Proof.
  rewrite filter_articles_partition.
  pose proof (Permutation_length (partition_permutation keywords articles)) as Hlen.
  set (p := filter (matches keywords) articles
            ++ filter (fun a => negb (matches keywords a)) articles) in *.
  unfold slice_to. rewrite Hlen.
  destruct (Z.ltb_spec max_items 0); rewrite length_firstn; lia.
Qed.

(** X4: filtering again with the same keywords and the same cap (not
    negative) changes nothing. *)
Theorem filter_articles_idempotent
    (articles : list article) (keywords : list string) (max_items : Z) :
  0 <= max_items ->
  filter_articles (filter_articles articles keywords max_items) keywords max_items
  = filter_articles articles keywords max_items.
Proof.
  intros Hn.
  rewrite (filter_articles_partition keywords
             (filter_articles articles keywords max_items)).
  rewrite (filter_articles_partition keywords articles).
  rewrite !slice_to_nonneg by exact Hn.
  rewrite partition_prefix_hits, partition_prefix_misses.
  rewrite <- firstn_app, firstn_firstn, Nat.min_id. reflexivity.
Qed.

Lemma filter_articles_idempotent_witness :
  0 <= 1
  /\ filter_articles
       (filter_articles [bridge_story; lumber_story] MATERIAL_KEYWORDS 1)
       MATERIAL_KEYWORDS 1
     = filter_articles [bridge_story; lumber_story] MATERIAL_KEYWORDS 1.
Proof.
  split; [lia|].
  exact (filter_articles_idempotent
           [bridge_story; lumber_story] MATERIAL_KEYWORDS 1 ltac:(lia)).
Defined.

Lemma contains_empty (s : string) : contains s "" = true.
Proof. destruct s; reflexivity. Qed.

(** X5: two keyword sets under which the filter only cuts.  With no
    keyword nothing matches, and with the empty string among the keywords
    everything matches; either way the output is the input cut to the cap,
    in the input's order. *)
Theorem filter_articles_plain_cut
    (articles : list article) (keywords : list string) (max_items : Z) :
  keywords = [] \/ In "" keywords ->
  filter_articles articles keywords max_items = slice_to max_items articles.
Proof.
  intros Hk. rewrite filter_articles_partition. destruct Hk as [-> | Hin].
  - rewrite filter_none by reflexivity.
    rewrite filter_all by reflexivity. reflexivity.
  - assert (Hall : forall a, matches keywords a = true).
    { intros a. unfold matches, kw_match. apply existsb_exists.
      exists "". split.
      - change "" with (lower ""). now apply in_map.
      - apply contains_empty. }
    rewrite filter_all by (intros; apply Hall).
    rewrite filter_none by (intros; rewrite Hall; reflexivity).
    now rewrite app_nil_r.
Qed.

Lemma filter_articles_plain_cut_witness :
  (([] : list string) = [] \/ In "" ([] : list string))
  /\ filter_articles [bridge_story; lumber_story] [] 1 = [bridge_story].
Proof.
  split; [left; reflexivity|].
  exact (filter_articles_plain_cut [bridge_story; lumber_story] [] 1
           (or_introl eq_refl)).
Defined.

(** ** Lower case *)

Lemma lower_char_idempotent (c : ascii) : lower_char (lower_char c) = lower_char c.
Proof.
  destruct c as [[] [] [] [] [] [] [] []]; reflexivity.
Qed.

Lemma lower_idempotent (s : string) : lower (lower s) = lower s.
Proof.
  induction s as [|c s IH]; simpl; [reflexivity|].
  now rewrite lower_char_idempotent, IH.
Qed.

Lemma lower_app (a b : string) :
  lower (a ++ b) = (lower a ++ lower b)%string.
Proof.
  induction a as [|c a IH]; simpl; [reflexivity | now rewrite IH].
Qed.

(** X6: matching ignores the case of ASCII letters, in the keywords and in
    the text: lowering the keywords, the title and the summary does not
    change whether an article matches, nor what the filter returns for
    given articles. *)
Theorem matching_ignores_case (keywords : list string) :
  (forall a, matches (map lower keywords) (lower_article a) = matches keywords a)
  /\ (forall articles max_items,
         filter_articles articles (map lower keywords) max_items
         = filter_articles articles keywords max_items).
Proof.
  assert (Hk : map lower (map lower keywords) = map lower keywords).
  { rewrite map_map. apply map_ext. intros k. apply lower_idempotent. }
  split.
  - intros a. unfold matches, kw_match. rewrite Hk. cbn [title desc lower_article].
    rewrite <- (lower_idempotent (title a ++ " " ++ desc a)).
    rewrite !lower_app. reflexivity.
  - intros articles max_items. unfold filter_articles. rewrite Hk. reflexivity.
Qed.

(** ** The normalizer, continued *)

(** X7: every element found yields one article, whatever it lacks: the
    number of articles is the number of [item] elements, 8 at most, and the
    number of Atom entries, 8 at most, when there is no [item]. *)
Theorem parse_feed_count (w : world) (root : element) :
  List.length (parse_feed w root)
  = match findall "item" root with
    | [] => Nat.min 8 (List.length (findall (atom "entry") root))
    | _ :: _ => Nat.min 8 (List.length (findall "item" root))
    end.
Proof.
  rewrite parse_feed_cases.
  destruct (findall "item" root) as [|x l]; cbn [is_nil];
    rewrite length_map, length_firstn; reflexivity.
Qed.

(** An element without children or text still gives an article, with
    empty fields. *)
Example bare_item_kept (w : world) :
  parse_feed w (rss_doc [Element "item" [] None []])
  = [{| title := ""; link := ""; desc := ""; date := ""; source := None |}].
Proof. reflexivity. Qed.

Lemma str_take_all (n : nat) (s : string) :
  (String.length s <= n)%nat -> str_take n s = s.
Proof.
  revert s; induction n as [|n IH]; intros [|c s]; simpl; intros H;
    try reflexivity; try lia.
  rewrite IH; [reflexivity | lia].
Qed.

(** X8: the date of an article is cut to 16 characters for an RSS item
    and to 10 for an Atom entry, and a fetched article carries no source
    label yet. *)
Theorem parse_feed_dates (w : world) (root : element) (a : article) :
  In a (parse_feed w root) ->
  (String.length (date a) <= 16)%nat
  /\ (findall "item" root = [] -> (String.length (date a) <= 10)%nat)
  /\ source a = None.
Proof.
  rewrite parse_feed_cases.
  destruct (findall "item" root) as [|x l] eqn:E; cbn [is_nil]; intros Ha;
    apply in_map_iff in Ha; destruct Ha as [e [<- _]].
  - cbn [date source atom_article].
    destruct (str_nonempty (text_of w (find_child (atom "updated") e))).
    + pose proof (str_take_length 10 (text_of w (find_child (atom "updated") e))).
      repeat split; try lia.
    + repeat split; simpl; lia.
  - cbn [date source rss_article].
    destruct (str_nonempty (text_of w (find_child "pubDate" e))).
    + pose proof (str_take_length 16 (text_of w (find_child "pubDate" e))).
      repeat split; try lia; discriminate.
    + repeat split; simpl; try lia; discriminate.
Qed.

Lemma parse_feed_dates_witness :
  In {| title := "Starts up"; link := ""; desc := "Permits: 5 > 3 this week";
        date := ""; source := None |}
     (parse_feed offline comparison_doc)
  /\ (String.length "" <= 16)%nat.
Proof.
  assert (H : In {| title := "Starts up"; link := "";
                    desc := "Permits: 5 > 3 this week";
                    date := ""; source := None |}
                 (parse_feed offline comparison_doc))
    by (left; reflexivity).
  split; [exact H|].
  exact (proj1 (parse_feed_dates offline comparison_doc _ H)).
Defined.

(** *** Tag removal *)

Lemma after_gt_some (s t : string) :
  after_gt s = Some t -> exists mid, s = (mid ++ String ">" t)%string.
Proof.
  revert t; induction s as [|c s IH]; intros t; simpl; [discriminate|].
  destruct (Ascii.eqb_spec c ">") as [->|_].
  - intros [= <-]. exists EmptyString. reflexivity.
  - intros H. destruct (IH t H) as [mid ->]. exists (String c mid). reflexivity.
Qed.

Lemma tag_free_no_match (s : string) : tag_free s -> tag_match s = None.
Proof.
  intros Hfree. destruct (tag_match s) as [t|] eqn:E; [|reflexivity].
  exfalso. destruct s as [|c s]; simpl in E; [discriminate|].
  destruct (Ascii.eqb_spec c "<") as [->|_]; [|discriminate].
  destruct s as [|d s]; simpl in E; [discriminate|].
  destruct (Ascii.eqb_spec d ">") as [|Hd]; [discriminate|].
  apply after_gt_some in E. destruct E as [mid ->].
  apply Hd. exact (Hfree EmptyString d mid t eq_refl).
Qed.

Lemma tag_free_tail (c : ascii) (s : string) : tag_free (String c s) -> tag_free s.
Proof.
  intros H. exact (tag_free_app_r (String c EmptyString) s H).
Qed.

Lemma strip_tags_fixes (s : string) : tag_free s -> strip_tags s = s.
Proof.
  induction s as [|c s IH]; intros Hfree.
  - apply strip_tags_equation_1.
  - rewrite strip_tags_step, (tag_free_no_match _ Hfree).
    rewrite IH; [reflexivity | exact (tag_free_tail c s Hfree)].
Qed.

(** X9: the tag removal changes a text exactly when the text holds a
    complete tag; in particular applying it twice is applying it once. *)
Theorem strip_tags_fixed_points (s : string) :
  (strip_tags s = s <-> tag_free s)
  /\ strip_tags (strip_tags s) = strip_tags s.
Proof.
  split; [split|].
  - intros <-. apply strip_tags_tag_free.
  - apply strip_tags_fixes.
  - apply strip_tags_fixes, strip_tags_tag_free.
Qed.

(** *** White space *)

Lemma rstrip_idempotent (s : string) : rstrip (rstrip s) = rstrip s.
Proof.
  induction s as [|c s IH]; [reflexivity|].
  cbn [rstrip]. destruct (rstrip s) as [|d r] eqn:E.
  - destruct (is_space c) eqn:Ec; [reflexivity|].
    cbn [rstrip]. now rewrite Ec.
  - cbn [rstrip] in *. rewrite IH. reflexivity.
Qed.

Lemma lstrip_no_leading (s : string) : no_leading_space (lstrip s).
Proof.
  induction s as [|c s IH]; intros d r; simpl; [discriminate|].
  destruct (is_space c) eqn:Ec.
  - apply IH.
  - intros [= <- _]. exact Ec.
Qed.

Lemma rstrip_keeps_head (s : string) :
  no_leading_space s -> no_leading_space (rstrip s) /\ lstrip (rstrip s) = rstrip s.
Proof.
  intros H. destruct s as [|c s]; [split; [exact H | reflexivity]|].
  pose proof (H c s eq_refl) as Hc.
  cbn [rstrip]. destruct (rstrip s) as [|d r]; rewrite ?Hc.
  - split; [intros x y [= <- _]; exact Hc | simpl; now rewrite Hc].
  - split; [intros x y [= <- _]; exact Hc | simpl; now rewrite Hc].
Qed.

Lemma rstrip_no_trailing (s : string) : no_trailing_space (rstrip s).
Proof.
  induction s as [|c s IH]; intros x; [discriminate|].
  cbn [rstrip]. destruct (rstrip s) as [|d r] eqn:E.
  - destruct (is_space c) eqn:Ec; [discriminate|].
    simpl. intros [= <-]. exact Ec.
  - intros H. apply IH. exact H.
Qed.

Lemma strip_idempotent (s : string) : strip (strip s) = strip s.
Proof.
  unfold strip.
  destruct (rstrip_keeps_head (lstrip s) (lstrip_no_leading s)) as [_ ->].
  apply rstrip_idempotent.
Qed.

Lemma clean_desc_normal_form (d : string) :
  no_leading_space (clean_desc d)
  /\ no_trailing_space (clean_desc d)
  /\ clean_desc (clean_desc d) = clean_desc d.
Proof.
  split; [|split].
  - unfold clean_desc, strip.
    apply rstrip_keeps_head, lstrip_no_leading.
  - unfold clean_desc, strip. apply rstrip_no_trailing.
  - unfold clean_desc at 1.
    rewrite (strip_tags_fixes _ (clean_desc_tag_free d)).
    rewrite (str_take_all 220 _ (clean_desc_length d)).
    unfold clean_desc. apply strip_idempotent.
Qed.

(** X10: the summary of a fetched article never starts or ends with white
    space, and it is in normal form: cleaning it again changes nothing. *)
Theorem summary_normal_form (w : world) (root : element) (a : article) :
  In a (parse_feed w root) ->
  no_leading_space (desc a)
  /\ no_trailing_space (desc a)
  /\ clean_desc (desc a) = desc a.
Proof.
  intros Ha. apply parse_feed_desc in Ha. destruct Ha as [d ->].
  apply clean_desc_normal_form.
Qed.

Lemma summary_normal_form_witness :
  In {| title := "Lumber <b>up</b>"; link := ""; desc := "Prices rose again.";
        date := ""; source := None |}
     (parse_feed offline bold_doc)
  /\ clean_desc "Prices rose again." = "Prices rose again.".
Proof.
  assert (H : In {| title := "Lumber <b>up</b>"; link := "";
                    desc := "Prices rose again."; date := ""; source := None |}
                 (parse_feed offline bold_doc))
    by (left; reflexivity).
  split; [exact H|].
  exact (proj2 (proj2 (summary_normal_form offline bold_doc _ H))).
Defined.

(** ** The rate pattern *)

Lemma span_digits_spec (s d t : string) :
  span_digits s = (d, t) ->
  s = (d ++ t)%string
  /\ all_digits d = true
  /\ (forall c r, t = String c r -> is_digit c = false).
Proof.
  revert d t; induction s as [|c s IH]; intros d t; simpl.
  - intros [= <- <-]. repeat split. intros c r [=].
  - destruct (is_digit c) eqn:Ec.
    + destruct (span_digits s) as [d' t'] eqn:E. intros [= <- <-].
      destruct (IH d' t' eq_refl) as [-> [Hd Ht]].
      repeat split; [simpl; now rewrite Ec | exact Ht].
    + intros [= <- <-]. repeat split. intros x r [= <- _]. exact Ec.
Qed.

Lemma span_digits_run (d t : string) :
  all_digits d = true ->
  (forall c r, t = String c r -> is_digit c = false) ->
  span_digits (d ++ t) = (d, t).
Proof.
  intros Hd Ht. induction d as [|c d IH]; simpl.
  - destruct t as [|x r]; [reflexivity|].
    simpl. now rewrite (Ht x r eq_refl).
  - simpl in Hd. apply andb_true_iff in Hd. destruct Hd as [Hc Hd].
    rewrite Hc, (IH Hd). reflexivity.
Qed.

Lemma rate_match_sound (s g : string) :
  rate_match s = Some g ->
  decimal g /\ exists post, s = (g ++ "%" ++ post)%string.
Proof.
  unfold rate_match.
  destruct (span_digits s) as [d1 t1] eqn:E1.
  destruct d1 as [|a d1]; [discriminate|].
  destruct t1 as [|dot t]; [discriminate|].
  destruct (Ascii.eqb_spec dot ".") as [->|_]; [|discriminate].
  destruct (span_digits t) as [d2 t2] eqn:E2.
  destruct d2 as [|b d2]; [discriminate|].
  destruct t2 as [|pct post]; [discriminate|].
  destruct (Ascii.eqb_spec pct "%") as [->|_]; [|discriminate].
  intros [= <-].
  apply span_digits_spec in E1, E2.
  destruct E1 as [-> [Hd1 _]]. destruct E2 as [-> [Hd2 _]].
  split.
  - exists (String a d1), (String b d2). repeat split; try discriminate; assumption.
  - exists post. cbn [String.append]. rewrite !str_app_assoc. reflexivity.
Qed.

Lemma rate_match_complete (d1 d2 post : string) :
  d1 <> EmptyString -> d2 <> EmptyString ->
  all_digits d1 = true -> all_digits d2 = true ->
  rate_match (d1 ++ "." ++ d2 ++ "%" ++ post) = Some (d1 ++ "." ++ d2)%string.
Proof.
  intros N1 N2 H1 H2. unfold rate_match.
  rewrite (span_digits_run d1 ("." ++ d2 ++ "%" ++ post) H1)
    by (intros c r [= <- _]; reflexivity).
  destruct d1 as [|a d1]; [contradiction|]. cbn [String.append].
  rewrite Ascii.eqb_refl.
  rewrite (span_digits_run d2 (String "%" post) H2)
    by (intros c r [= <- _]; reflexivity).
  destruct d2 as [|b d2]; [contradiction|].
  rewrite Ascii.eqb_refl. reflexivity.
Qed.

Lemma search_rate_step (s : string) :
  search_rate s
  = match rate_match s with
    | Some g => Some g
    | None =>
        match s with
        | EmptyString => None
        | String _ r => search_rate r
        end
    end.
Proof. destruct s; reflexivity. Qed.

Lemma search_rate_sound (s g : string) :
  search_rate s = Some g ->
  decimal g /\ exists pre post, s = (pre ++ g ++ "%" ++ post)%string.
Proof.
  induction s as [|c s IH].
  - discriminate.
  - cbn [search_rate]. destruct (rate_match (String c s)) as [g'|] eqn:E.
    + intros [= <-]. apply rate_match_sound in E. destruct E as [Hd [post Hp]].
      split; [exact Hd | exists EmptyString, post; exact Hp].
    + intros H. destruct (IH H) as [Hd [pre [post Hp]]].
      split; [exact Hd|]. exists (String c pre), post. simpl. now rewrite Hp.
Qed.

Lemma search_rate_finds (pre g post : string) :
  decimal g -> search_rate (pre ++ g ++ "%" ++ post) <> None.
Proof.
  intros [d1 [d2 [-> [N1 [N2 [H1 H2]]]]]].
  assert (Hm : rate_match ((d1 ++ "." ++ d2) ++ "%" ++ post)
               = Some (d1 ++ "." ++ d2)%string).
  { rewrite <- (rate_match_complete d1 d2 post N1 N2 H1 H2).
    f_equal. rewrite !str_app_assoc. reflexivity. }
  set (t := ((d1 ++ "." ++ d2) ++ "%" ++ post)%string) in *.
  induction pre as [|c pre IH].
  - change (search_rate t <> None). rewrite search_rate_step, Hm. discriminate.
  - change (search_rate (String c (pre ++ t)) <> None).
    rewrite search_rate_step.
    destruct (rate_match (String c (pre ++ t))); [discriminate | exact IH].
Qed.

(** X11: the search for a rate succeeds exactly when a decimal number
    (digits, point, digits) followed by a percent sign occurs in the text,
    and what it returns is such a number, taken from the text. *)
Theorem search_rate_spec (s : string) :
  (search_rate s <> None
   <-> exists pre g post, decimal g /\ s = (pre ++ g ++ "%" ++ post)%string)
  /\ (forall g, search_rate s = Some g ->
                decimal g
                /\ exists pre post, s = (pre ++ g ++ "%" ++ post)%string).
Proof.
  split; [split|].
  - destruct (search_rate s) as [g|] eqn:E; [|contradiction].
    intros _. destruct (search_rate_sound s g E) as [Hd [pre [post Hp]]].
    exists pre, g, post. split; assumption.
  - intros [pre [g [post [Hd ->]]]]. now apply search_rate_finds.
  - apply search_rate_sound.
Qed.

Lemma search_rate_spec_witness :
  search_rate "30 Year Fixed Rate at 6.87%" = Some "6.87"
  /\ decimal "6.87".
Proof.
  assert (H : search_rate "30 Year Fixed Rate at 6.87%" = Some "6.87")
    by reflexivity.
  split; [exact H|].
  exact (proj1 (proj2 (search_rate_spec "30 Year Fixed Rate at 6.87%") "6.87" H)).
Defined.

(** ** The rate resolver, continued *)

Lemma last_item_ok (v x : pyval) :
  last_item v = Ok x ->
  (exists hist, v = PList (hist ++ [x]))
  \/ (exists s c, v = PStr s /\ x = PStr (String c EmptyString)).
Proof.
  destruct v as [| b | z | r | s | l | d]; cbn [last_item]; try discriminate.
  - destruct (last_char s) as [c|]; [|discriminate].
    intros [= <-]. right. exists s, c. split; reflexivity.
  - destruct l as [|y l]; [discriminate|]. intros [= <-]. left.
    destruct (exists_last (l := y :: l)) as [hist [z Hz]]; [discriminate|].
    exists hist. change (PList (y :: l) = PList (hist ++ [last (y :: l) PNone])).
    rewrite Hz, last_last. reflexivity.
Qed.

(** X12: the first tier gives a record exactly when the request succeeds,
    the body parses to a JSON object, and the value under ["pmms30"] (or
    the default [[{}]] when the key is absent) is a list that is not
    empty and ends with an object.  In every other case it raises, and the
    resolver goes on to the second tier. *)
Theorem rate_primary_succeeds_iff (w : world) (log : list event) :
  (exists r l, rate_primary w log = (Ok r, l))
  <-> exists raw d hist latest,
        urlopen w pmms_url "Mozilla/5.0" 8 = Ok raw
        /\ json_loads w raw = Ok (PDict d)
        /\ dict_get d "pmms30" (PList [PDict []]) = PList (hist ++ [PDict latest]).
Proof.
  rewrite rate_primary_run. split.
  - intros [r [l H]].
    destruct (urlopen w pmms_url "Mozilla/5.0" 8) as [raw|e] eqn:Eu;
      [|discriminate].
    destruct (json_loads w raw) as [data|e] eqn:Ej; [|discriminate].
    destruct data as [| b | z | f | s | l0 | d]; try discriminate.
    cbn [get_item] in H.
    destruct (last_item (dict_get d "pmms30" (PList [PDict []])))
      as [latest|e] eqn:El; [|discriminate].
    destruct (last_item_ok _ _ El) as [[hist Hh] | [s [c [_ ->]]]];
      [|discriminate].
    destruct latest as [| b | z | f | s | l0 | d0]; try discriminate.
    exists raw, d, hist, d0. repeat split; assumption.
  - intros [raw [d [hist [latest [-> [-> Hs]]]]]].
    cbn [get_item]. rewrite Hs, last_item_snoc. cbn [get_item].
    eexists. eexists. reflexivity.
Qed.

Lemma rate_primary_succeeds_iff_witness :
  let w := serving [] [] [(pmms_url, pmms_sample)] in
  exists r l, rate_primary w [] = (Ok r, l).
Proof.
  intros w.
  apply (proj2 (rate_primary_succeeds_iff w [])).
  exists pmms_url,
    [("pmms30", PList [PDict [("pmms", PStr "6.72");
                              ("weeklyendingdate", PStr "2024-05-09")]])],
    [],
    [("pmms", PStr "6.72"); ("weeklyendingdate", PStr "2024-05-09")].
  repeat split.
Defined.

(** Values that make the first tier raise although the body parses. *)
Example rate_primary_rejects :
  let served v := fst (rate_primary (serving [] [] [(pmms_url, v)]) []) in
  served (PList []) = Raise AttributeError
  /\ served (PDict [("pmms30", PList [])]) = Raise IndexError
  /\ served (PDict [("pmms30", PStr "6.72")]) = Raise AttributeError
  /\ served (PDict [("pmms30", PDict [])]) = Raise KeyError
  /\ served (PDict [("pmms30", PNone)]) = Raise TypeError
  /\ served (PDict [("pmms30", PList [PStr "6.72"])]) = Raise AttributeError.
Proof. repeat split. Qed.

(** X13: the source label and the link of the record always go together,
    as one of three pairs, and the label is Freddie Mac's exactly when the
    first tier gave the record. *)
Theorem rate_record_origin (w : world) (log : list event) :
  exists r log',
    fetch_mortgage_rate w log = (Ok r, log')
    /\ In (dict_lookup r "source", dict_lookup r "link")
         [ (Some (PStr "Freddie Mac Primary Mortgage Market Survey"),
            Some (PStr "https://www.freddiemac.com/pmms"));
           (Some (PStr "Mortgage News Daily"),
            Some (PStr "https://www.mortgagenewsdaily.com/mortgage-rates/30-year-fixed"));
           (Some (PStr "Bankrate"),
            Some (PStr "https://www.bankrate.com/mortgages/30-year-mortgage-rate/")) ]
    /\ (dict_lookup r "source"
        = Some (PStr "Freddie Mac Primary Mortgage Market Survey")
        <-> fetch_mortgage_rate w log = rate_primary w log).
Proof.
  rewrite fetch_mortgage_rate_run, rate_primary_run.
  destruct (urlopen w pmms_url "Mozilla/5.0" 8) as [raw|e].
  2: { rewrite rate_secondary_run.
       destruct (feed_items w mnd_url 10) as [|first tl];
         [|destruct (search_rate (title first ++ desc first))];
         eexists; eexists; (split; [reflexivity|]);
         (split; [simpl; tauto|]); split; discriminate. }
  destruct (json_loads w raw) as [data|e].
  2: { rewrite rate_secondary_run.
       destruct (feed_items w mnd_url 10) as [|first tl];
         [|destruct (search_rate (title first ++ desc first))];
         eexists; eexists; (split; [reflexivity|]);
         (split; [simpl; tauto|]); split; discriminate. }
  destruct (get_item data "pmms30" (PList [PDict []])) as [series|e].
  2: { rewrite rate_secondary_run.
       destruct (feed_items w mnd_url 10) as [|first tl];
         [|destruct (search_rate (title first ++ desc first))];
         eexists; eexists; (split; [reflexivity|]);
         (split; [simpl; tauto|]); split; discriminate. }
  destruct (last_item series) as [latest|e].
  2: { rewrite rate_secondary_run.
       destruct (feed_items w mnd_url 10) as [|first tl];
         [|destruct (search_rate (title first ++ desc first))];
         eexists; eexists; (split; [reflexivity|]);
         (split; [simpl; tauto|]); split; discriminate. }
  destruct (get_item latest "pmms" (PStr "N/A")) as [rate|e];
    destruct (get_item latest "weeklyendingdate" (PStr "")) as [week|e'].
  1: { eexists; eexists; (split; [reflexivity|]);
       (split; [simpl; tauto|]); split; reflexivity. }
  all: rewrite rate_secondary_run;
    (destruct (feed_items w mnd_url 10) as [|first tl];
     [|destruct (search_rate (title first ++ desc first))]);
    eexists; eexists; (split; [reflexivity|]);
    (split; [simpl; tauto|]); split; discriminate.
Qed.

Lemma rate_primary_source (w : world) (log l : list event) (r : dict) :
  rate_primary w log = (Ok r, l) ->
  dict_lookup r "source" = Some (PStr "Freddie Mac Primary Mortgage Market Survey").
Proof.
  rewrite rate_primary_run.
  destruct (urlopen w pmms_url "Mozilla/5.0" 8) as [raw|e]; [|discriminate].
  destruct (json_loads w raw) as [data|e]; [|discriminate].
  destruct (get_item data "pmms30" (PList [PDict []])) as [series|e]; [|discriminate].
  destruct (last_item series) as [latest|e]; [|discriminate].
  destruct (get_item latest "pmms" (PStr "N/A")) as [rate|e];
    destruct (get_item latest "weeklyendingdate" (PStr "")) as [week|e'];
    try discriminate.
  intros [= <- _]. reflexivity.
Qed.

(** X14: a record of the second tier is read off the first article of the
    feed only: its rate is a decimal number followed by a percent sign that
    occurs in that article's title followed directly by its summary, its
    note is that title, and its period label is the current date. *)
Theorem rate_secondary_origin
    (w : world) (log log' : list event) (r : dict) :
  fetch_mortgage_rate w log = (Ok r, log') ->
  dict_lookup r "source" = Some (PStr "Mortgage News Daily") ->
  exists first rest g,
    feed_items w mnd_url 10 = first :: rest
    /\ decimal g
    /\ (exists pre post,
           (title first ++ desc first)%string = (pre ++ g ++ "%" ++ post)%string)
    /\ dict_lookup r "rate" = Some (PStr (g ++ "%"))
    /\ dict_lookup r "change" = Some (PStr (title first))
    /\ dict_lookup r "week" = Some (PStr (strftime_now w "%B %d, %Y")).
Proof.
  rewrite fetch_mortgage_rate_run.
  destruct (rate_primary w log) as [[r1|e] l1] eqn:E1.
  - intros [= <- _]. rewrite (rate_primary_source _ _ _ _ E1). discriminate.
  - rewrite rate_secondary_run.
    destruct (feed_items w mnd_url 10) as [|first rest]; [intros [= <- _]; discriminate|].
    destruct (search_rate (title first ++ desc first)) as [g|] eqn:Es;
      [|intros [= <- _]; discriminate].
    intros [= <- _] _.
    destruct (search_rate_sound _ _ Es) as [Hd Hocc].
    exists first, rest, g. repeat split; assumption.
Qed.

Lemma rate_secondary_origin_witness :
  let w := serving [(pmms_url, TimeoutError)] [(mnd_url, rates_doc)] [] in
  exists r log',
    fetch_mortgage_rate w [] = (Ok r, log')
    /\ dict_lookup r "source" = Some (PStr "Mortgage News Daily")
    /\ exists first rest g,
         feed_items w mnd_url 10 = first :: rest
         /\ decimal g
         /\ dict_lookup r "rate" = Some (PStr (g ++ "%")).
Proof.
  intros w.
  destruct (fetch_mortgage_rate w []) as [[r|e] log'] eqn:E;
    [|vm_compute in E; discriminate].
  assert (Hs : dict_lookup r "source" = Some (PStr "Mortgage News Daily")).
  { vm_compute in E. injection E as <- _. reflexivity. }
  exists r, log'. split; [reflexivity|]. split; [exact Hs|].
  destruct (rate_secondary_origin w [] log' r E Hs)
    as [first [rest [g [Hf [Hd [_ [Hr _]]]]]]].
  exists first, rest, g. repeat split; assumption.
Defined.

(** The title and the summary are joined without a separator, so a rate
    can be read across their border. *)
Example rate_across_border :
  search_rate ("Rates now at 6." ++ "87% and rising") = Some "6.87".
Proof. reflexivity. Qed.

(** ** The digest assembler, continued *)

Lemma filter_articles_cap
    (articles : list article) (keywords : list string) (max_items : Z) :
  0 <= max_items ->
  Z.of_nat (List.length (filter_articles articles keywords max_items)) <= max_items.
Proof.
  intros Hn. rewrite filter_articles_partition. now apply slice_to_length.
Qed.

Lemma slice_to_in {A : Type} (n : Z) (l : list A) (x : A) :
  In x (slice_to n l) -> In x l.
Proof.
  destruct (slice_to_firstn n l) as [k ->]. apply in_firstn.
Qed.

Lemma filter_articles_in
    (articles : list article) (keywords : list string) (max_items : Z) (a : article) :
  In a (filter_articles articles keywords max_items) -> In a articles.
Proof.
  rewrite filter_articles_partition. intros Ha. apply slice_to_in in Ha.
  apply Permutation_in with
    (l := filter (matches keywords) articles
          ++ filter (fun a => negb (matches keywords a)) articles);
    [apply Permutation_sym, partition_permutation | exact Ha].
Qed.

Lemma pool_from_group (w : world) (g : string) (a : article) :
  In a (flat_map (tagged_items w) (group g)) -> from_group w g a.
Proof.
  intros Ha. apply in_flat_map in Ha. destruct Ha as [f [Hf Ha]].
  exists f. split; [exact Hf|]. split; [exact Ha|].
  unfold tagged_items in Ha. apply in_map_iff in Ha.
  destruct Ha as [b [<- _]]. reflexivity.
Qed.

(** X15: in every world the sections of the digest hold at most 5, 4, 4
    and 3 articles. *)
Theorem digest_section_bounds (w : world) (log : list event) :
  exists d log',
    gather_news w log = (Ok d, log')
    /\ (List.length (raleigh d) <= 5)%nat
    /\ (List.length (construction d) <= 4)%nat
    /\ (List.length (materials d) <= 4)%nat
    /\ (List.length (mortgage_news d) <= 3)%nat.
Proof.
  rewrite gather_news_run. eexists. eexists. split; [reflexivity|].
  cbn [raleigh construction materials mortgage_news].
  repeat split.
  - pose proof (filter_articles_cap
                  (flat_map (tagged_items w) (group "raleigh_news"))
                  RALEIGH_KEYWORDS 5 ltac:(lia)). lia.
  - pose proof (filter_articles_cap
                  (flat_map (tagged_items w) (group "construction_news"))
                  (MATERIAL_KEYWORDS ++ ["home"; "build"; "permit"; "housing"])
                  4 ltac:(lia)). lia.
  - pose proof (filter_articles_cap
                  (flat_map (tagged_items w) (group "materials_news"))
                  MATERIAL_KEYWORDS 4 ltac:(lia)). lia.
  - match goal with
    | |- (List.length (slice_to 3 ?l) <= 3)%nat =>
        pose proof (slice_to_length 3 l ltac:(lia)); lia
    end.
Qed.

(** X16: every article of the digest comes from a feed of its section's
    group and carries that feed's name as its source; the articles of the
    mortgage bucket come from the construction feeds, like those of the
    construction section. *)
Theorem digest_articles_tagged (w : world) (log : list event) :
  exists d log',
    gather_news w log = (Ok d, log')
    /\ Forall (from_group w "raleigh_news") (raleigh d)
    /\ Forall (from_group w "construction_news") (construction d)
    /\ Forall (from_group w "materials_news") (materials d)
    /\ Forall (from_group w "construction_news") (mortgage_news d).
Proof.
  rewrite gather_news_run. eexists. eexists. split; [reflexivity|].
  cbn [raleigh construction materials mortgage_news].
  repeat split; apply Forall_forall; intros a Ha.
  - apply pool_from_group. exact (filter_articles_in _ _ _ _ Ha).
  - apply pool_from_group. exact (filter_articles_in _ _ _ _ Ha).
  - apply pool_from_group. exact (filter_articles_in _ _ _ _ Ha).
  - apply slice_to_in, in_flat_map in Ha. destruct Ha as [f [Hf Ha]].
    apply filter_articles_in in Ha.
    apply pool_from_group. apply in_flat_map. exists f. split; assumption.
Qed.

Lemma flat_map_nil {A B : Type} (f : A -> list B) (l : list A) :
  (forall x, In x l -> f x = []) -> flat_map f l = [].
Proof.
  induction l as [|x l IH]; intros H; simpl; [reflexivity|].
  rewrite (H x (or_introl eq_refl)), IH; [reflexivity|].
  intros y Hy. apply H. now right.
Qed.

Lemma filter_articles_nil (keywords : list string) (max_items : Z) :
  filter_articles [] keywords max_items = [].
Proof.
  rewrite filter_articles_partition. unfold slice_to. cbn [filter app].
  destruct (max_items <? 0); apply firstn_nil.
Qed.

(** X17: a group whose feeds all give nothing (they fail, or they hold
    no entry) leaves its section empty, and the run goes on: with no
    article from the construction feeds, the construction section and the
    mortgage bucket are both empty. *)
Theorem digest_empty_sections (w : world) (log : list event) :
  exists d log',
    gather_news w log = (Ok d, log')
    /\ ((forall f, In f (group "raleigh_news") -> feed_items w (url f) 10 = []) ->
        raleigh d = [])
    /\ ((forall f, In f (group "construction_news") -> feed_items w (url f) 10 = []) ->
        construction d = [] /\ mortgage_news d = [])
    /\ ((forall f, In f (group "materials_news") -> feed_items w (url f) 10 = []) ->
        materials d = []).
Proof.
  rewrite gather_news_run. eexists. eexists. split; [reflexivity|].
  cbn [raleigh construction materials mortgage_news].
  assert (Hpool : forall g,
             (forall f, In f (group g) -> feed_items w (url f) 10 = []) ->
             forall f, In f (group g) -> tagged_items w f = []).
  { intros g H f Hf. unfold tagged_items. now rewrite (H f Hf). }
  split; [|split].
  - intros H. rewrite (flat_map_nil _ _ (Hpool _ H)). apply filter_articles_nil.
  - intros H. split.
    + rewrite (flat_map_nil _ _ (Hpool _ H)). apply filter_articles_nil.
    + rewrite flat_map_nil; [reflexivity|].
      intros f Hf. rewrite (Hpool _ H f Hf). apply filter_articles_nil.
  - intros H. rewrite (flat_map_nil _ _ (Hpool _ H)). apply filter_articles_nil.
Qed.

Lemma digest_empty_sections_witness :
  exists d log',
    gather_news offline [] = (Ok d, log')
    /\ raleigh d = [] /\ construction d = []
    /\ mortgage_news d = [] /\ materials d = [].
Proof.
  destruct (digest_empty_sections offline []) as [d [log' [Hrun [Hr [Hc Hm]]]]].
  exists d, log'. split; [exact Hrun|].
  assert (Hoff : forall g f, In f (group g) -> feed_items offline (url f) 10 = [])
    by reflexivity.
  split; [exact (Hr (Hoff _))|].
  split; [exact (proj1 (Hc (Hoff _)))|].
  split; [exact (proj2 (Hc (Hoff _))) | exact (Hm (Hoff _))].
Defined.

Lemma warning_in_feed_logs (w : world) (feeds : list feed) (u : string) (e : exn) :
  In (Printed (MsgFetchFailed u e)) (flat_map (feed_log w) feeds)
  <-> exists f, In f feeds /\ url f = u /\ fetch_result w u 10 = Raise e.
Proof.
  rewrite in_flat_map. split.
  - intros [f [Hf Hin]]. exists f. split; [exact Hf|].
    unfold feed_log, fetch_log in Hin.
    destruct Hin as [H | [H | Hin]]; try discriminate.
    destruct (fetch_result w (url f) 10) as [root|e'] eqn:E; [destruct Hin|].
    destruct Hin as [[= <- <-] | []]. split; [reflexivity | exact E].
  - intros [f [Hf [<- E]]]. exists f. split; [exact Hf|].
    unfold feed_log, fetch_log. rewrite E. right. right. left. reflexivity.
Qed.

(** X18: the run of the assembler prints a warning for a location and an
    exception exactly when that location is a configured feed whose fetch
    raised that exception: every failure is reported, and nothing else
    is. *)
Theorem digest_failures_reported (w : world) (u : string) (e : exn) :
  In (Printed (MsgFetchFailed u e)) (snd (gather_news w []))
  <-> exists f, In f all_feeds /\ url f = u /\ fetch_result w u 10 = Raise e.
Proof.
  rewrite gather_news_run. cbn [snd app].
  change all_feeds
    with (group "raleigh_news" ++ group "construction_news" ++ group "materials_news").
  split.
  - intros [H | H]; [discriminate|].
    rewrite !in_app_iff, !warning_in_feed_logs in H.
    destruct H as [[f [Hf He]] | [[f [Hf He]] | [f [Hf He]]]];
      exists f; (split; [|exact He]); rewrite !in_app_iff; tauto.
  - intros [f [Hf He]]. right.
    rewrite !in_app_iff, !warning_in_feed_logs.
    rewrite !in_app_iff in Hf.
    destruct Hf as [Hf | [Hf | Hf]]; [left | right; left | right; right];
      exists f; split; assumption.
Qed.

Lemma digest_failures_reported_witness :
  let w := serving [("https://www.wral.com/rss/1148/", TimeoutError)] [] [] in
  In (Printed (MsgFetchFailed "https://www.wral.com/rss/1148/" TimeoutError))
     (snd (gather_news w [])).
Proof.
  intros w.
  apply (proj2 (digest_failures_reported w "https://www.wral.com/rss/1148/"
                  TimeoutError)).
  exists (mkFeed "WRAL – Local News" "https://www.wral.com/rss/1148/").
  split; [left; reflexivity|]. split; reflexivity.
Defined.

(** ** The page builder *)

Lemma str_app_nil_r (s : string) : (s ++ "")%string = s.
Proof. induction s as [|c s IH]; simpl; [reflexivity | now rewrite IH]. Qed.

Lemma concat_cons (x : string) (l : list string) :
  String.concat "" (x :: l) = (x ++ String.concat "" l)%string.
Proof.
  destruct l as [|y l]; simpl; [now rewrite str_app_nil_r | reflexivity].
Qed.

Lemma concat_holds (l : list string) (x : string) :
  In x l -> exists pre post, String.concat "" l = (pre ++ x ++ post)%string.
Proof.
  induction l as [|y l IH]; [intros []|].
  intros [-> | Hin]; rewrite concat_cons.
  - exists EmptyString, (String.concat "" l). reflexivity.
  - destruct (IH Hin) as [pre [post ->]].
    exists (y ++ pre)%string, post. now rewrite str_app_assoc.
Qed.

Lemma contains_trans (s t p : string) :
  contains s t = true -> contains t p = true -> contains s p = true.
Proof.
  rewrite !contains_spec. intros [a [b ->]] [c [d ->]].
  exists (a ++ c)%string, (d ++ b)%string.
  now rewrite !str_app_assoc.
Qed.

Lemma contains_mid (a x b : string) : contains (a ++ x ++ b) x = true.
Proof. apply contains_spec. exists a, b. reflexivity. Qed.

Lemma card_holds (a : article) :
  contains (card a) (title a) = true
  /\ contains (card a) (link a) = true
  /\ contains (card a) (desc a) = true
  /\ (forall s, source a = Some s -> contains (card a) s = true).
Proof.
  unfold card. repeat split.
  - apply contains_spec.
    exists (card_0 ++ source_badge a ++ card_1 ++ link a ++ card_2)%string,
      (card_3 ++ desc_html a ++ card_4)%string.
    now rewrite !str_app_assoc.
  - apply contains_spec.
    exists (card_0 ++ source_badge a ++ card_1)%string,
      (card_2 ++ title a ++ card_3 ++ desc_html a ++ card_4)%string.
    now rewrite !str_app_assoc.
  - unfold desc_html. destruct (desc a) as [|c r] eqn:E.
    + apply contains_empty.
    + cbn [str_nonempty]. apply contains_spec.
      exists (card_0 ++ source_badge a ++ card_1 ++ link a ++ card_2 ++ title a
              ++ card_3 ++ desc_open)%string,
        ("</p>" ++ card_4)%string.
      now rewrite !str_app_assoc.
  - intros s Hs. unfold source_badge. rewrite Hs.
    destruct s as [|c r]; [apply contains_empty|].
    cbn [str_nonempty]. apply contains_spec.
    exists (card_0 ++ badge_open)%string,
      ("</span>" ++ card_1 ++ link a ++ card_2 ++ title a ++ card_3
       ++ desc_html a ++ card_4)%string.
    now rewrite !str_app_assoc.
Qed.

(** X19: the cards show every article of the list: the title, the link,
    the summary and the source label of each article stand in the output
    as they are, character for character (nothing is escaped or cut). *)
Theorem article_cards_verbatim
    (articles : list article) (fallback_msg : string) (a : article) :
  In a articles ->
  contains (article_cards articles fallback_msg) (title a) = true
  /\ contains (article_cards articles fallback_msg) (link a) = true
  /\ contains (article_cards articles fallback_msg) (desc a) = true
  /\ (forall s, source a = Some s ->
                contains (article_cards articles fallback_msg) s = true).
Proof.
  intros Ha. unfold article_cards.
  destruct articles as [|x l]; [destruct Ha|]. cbn [is_nil].
  assert (Hc : contains (String.concat "" (map card (x :: l))) (card a) = true).
  { apply contains_spec. apply concat_holds. now apply in_map. }
  destruct (card_holds a) as [Ht [Hl [Hd Hs]]].
  repeat split; try (eapply contains_trans; [exact Hc | assumption]).
  intros s E. eapply contains_trans; [exact Hc | now apply Hs].
Qed.

Lemma article_cards_verbatim_witness :
  In lumber_story [bridge_story; lumber_story]
  /\ contains (article_cards [bridge_story; lumber_story] "No new stories today.")
       "Lumber prices jump 12% amid tariff threat" = true.
Proof.
  assert (H : In lumber_story [bridge_story; lumber_story])
    by (right; left; reflexivity).
  split; [exact H|].
  exact (proj1 (article_cards_verbatim [bridge_story; lumber_story]
                  "No new stories today." lumber_story H)).
Defined.

(** A title keeps the markup it came with, and the card shows it. *)
Example title_markup_in_card :
  let a := {| title := "Lumber <b>up</b>"; link := "";
              desc := "Prices rose again."; date := ""; source := None |} in
  parse_feed offline bold_doc = [a]
  /\ contains (article_cards [a] "") "<b>up</b>" = true.
Proof. split; [reflexivity | vm_compute; reflexivity]. Qed.

(** X20: the page is built exactly when the rate record has the keys
    ["rate"], ["week"], ["link"] and ["source"]; when one of them is
    missing the builder raises [KeyError].  The key ["change"] may be
    missing. *)
Theorem build_email_html_keys (w : world) (mortgage : dict) (news : digest) :
  if forallb (has_key mortgage) ["rate"; "week"; "link"; "source"]
  then exists html, build_email_html w mortgage news = Ok html
  else build_email_html w mortgage news = Raise KeyError.
Proof.
  unfold build_email_html, forallb, has_key, dict_item, obind.
  destruct (dict_lookup mortgage "rate"); cbn [andb]; [|reflexivity].
  destruct (dict_lookup mortgage "week"); cbn [andb]; [|reflexivity].
  destruct (dict_lookup mortgage "link"); cbn [andb]; [|reflexivity].
  destruct (dict_lookup mortgage "source"); cbn [andb]; [|reflexivity].
  eexists. reflexivity.
Qed.

Lemma slice_to_is_nil {A : Type} (l : list A) :
  is_nil (slice_to 2 l) = is_nil l.
Proof. destruct l; reflexivity. Qed.

Lemma slice_to_twice {A : Type} (l : list A) :
  slice_to 2 (slice_to 2 l) = slice_to 2 l.
Proof.
  rewrite !slice_to_nonneg by lia. rewrite firstn_firstn. reflexivity.
Qed.

(** X21: the page shows the first two articles of the mortgage bucket
    only: replacing the bucket by its first two articles gives the same
    page.  (The assembler keeps up to three.) *)
Theorem page_shows_two_related
    (w : world) (mortgage : dict) (news : digest) (l : list article) :
  build_email_html w mortgage (with_mortgage_news news l)
  = build_email_html w mortgage (with_mortgage_news news (slice_to 2 l)).
Proof.
  unfold build_email_html, mortgage_news_html.
  cbn [mortgage_news raleigh construction materials with_mortgage_news].
  rewrite slice_to_is_nil, slice_to_twice. reflexivity.
Qed.

(** ** Delivery and the run *)


(** A refused login: nothing is sent, the session is closed, the
    exception reaches the caller. *)
Example refused_login :
  send_email mail_refused "<html>" "Brief" RECIPIENTS "me@example.org" "secret" []
  = (Raise (OtherException "SMTPAuthenticationError"),
     [ RunPrinted (MsgSending RECIPIENTS);
       SmtpConnect "smtp.gmail.com" 465;
       SmtpLogin "me@example.org" "secret";
       SmtpQuit ]).
Proof. reflexivity. Qed.

Lemma record_keys_items (r : dict) :
  map fst r = record_keys ->
  exists v1 v2 v3 v4 v5,
    r = [("rate", v1); ("week", v2); ("source", v3); ("link", v4); ("change", v5)].
Proof.
  unfold record_keys.
  destruct r as [|[k1 v1] [|[k2 v2] [|[k3 v3] [|[k4 v4] [|[k5 v5] [|x r]]]]]];
    try discriminate.
  cbn [map fst]. intros [= -> -> -> -> ->].
  exists v1, v2, v3, v4, v5. reflexivity.
Qed.

Lemma fetch_mortgage_rate_keys (w : world) (log : list event) :
  exists r log',
    fetch_mortgage_rate w log = (Ok r, log') /\ map fst r = record_keys.
Proof.
  rewrite fetch_mortgage_rate_run.
  destruct (rate_primary w log) as [[r|e] l1] eqn:E1.
  - exists r, l1. split; [reflexivity|]. exact (proj1 (rate_primary_shape _ _ _ _ E1)).
  - destruct (rate_secondary w (l1 ++ [Printed (MsgRateFailed e)]))
      as [[[r|]|e2] l2] eqn:E2.
    + exists r, l2. split; [reflexivity|].
      exact (proj1 (rate_secondary_shape _ _ _ _ E2)).
    + exists (rate_fallback w), l2. split; reflexivity.
    + exists (rate_fallback w), l2. split; reflexivity.
Qed.

(** X23: in every world the record of the resolver and the digest of the
    assembler give a page: the builder finds the keys it reads. *)
Theorem pipeline_always_renders (w : world) :
  exists r d html,
    fst (fetch_mortgage_rate w []) = Ok r
    /\ fst (gather_news w []) = Ok d
    /\ build_email_html w r d = Ok html.
Proof.
  destruct (fetch_mortgage_rate_keys w []) as [r [l [Hr Hk]]].
  destruct (record_keys_items r Hk) as [v1 [v2 [v3 [v4 [v5 ->]]]]].
  rewrite Hr, gather_news_run.
  eexists. eexists. eexists.
  split; [reflexivity|]. split; [reflexivity|]. reflexivity.
Qed.

Lemma no_smtp_in_pipeline (l : list event) :
  forallb (fun ev => negb (is_smtp ev)) (map Pipeline l) = true.
Proof. induction l as [|x l IH]; [reflexivity | exact IH]. Qed.


(** ** Instances *)

Lemma strip_tags_fixed_points_witness :
  strip_tags "Permits: 5 > 3 this week" = "Permits: 5 > 3 this week"
  /\ tag_free "Permits: 5 > 3 this week".
Proof.
  assert (H : strip_tags "Permits: 5 > 3 this week" = "Permits: 5 > 3 this week")
    by reflexivity.
  split; [exact H|].
  exact (proj1 (proj1 (strip_tags_fixed_points "Permits: 5 > 3 this week")) H).
Defined.

Lemma rate_record_origin_witness :
  let w := serving [] [] [(pmms_url, pmms_sample)] in
  exists r log',
    fetch_mortgage_rate w [] = (Ok r, log')
    /\ dict_lookup r "source"
       = Some (PStr "Freddie Mac Primary Mortgage Market Survey").
Proof.
  intros w.
  destruct (rate_record_origin w []) as [r [log' [Hrun [_ Hiff]]]].
  exists r, log'. split; [exact Hrun|].
  apply (proj2 Hiff). reflexivity.
Defined.

